(** * nnimg / WEKA_Scripts: manifest builder and prediction remapper

    A shallow embedding of the two scripts [imgtocsv.py] and
    [wekatokaggle.py], followed by the properties of the manifest
    traversal and of the positional join that the specification states.

    Conventions of the embedding.
    - A Python [str] is a [string]; a character of the string stands for
      the code point of the same number (U+0000 .. U+00FF).
    - An opened text file is the list of the lines that iterating over it
      yields, each still carrying its line terminator.
    - A file opened for writing is the list of the strings passed to
      [write], oldest first.
    - A raised exception is a value of [exn]; code that may raise returns a
      [result]. *)

From Stdlib Require Import Ascii.
From stdpp Require Import gmap strings list fin_maps pretty sorting.

(** ** Python primitives used by the scripts *)

Module Py.

Inductive exn : Type :=
| IndexError
| KeyError (key : string)
| TypeError
| UnboundLocalError (name : string)
| ValueError (msg : string)
| FileExistsError (path : string)
| FileNotFoundError (path : string)
| NotADirectoryError (path : string).

Inductive result (A : Type) : Type :=
| Ok (a : A)
| Raise (e : exn).
Arguments Ok {A} a.
Arguments Raise {A} e.

#[export] Instance result_ret : MRet result := fun _ a => Ok a.
#[export] Instance result_bind : MBind result := fun _ _ f m =>
  match m with Ok a => f a | Raise e => Raise e end.

(** A cell of a Python list that holds both [int] and [str] objects. *)
Inductive pyval : Type :=
| PInt (z : Z)
| PStr (s : string).

(** [str(x)] *)
Definition str (x : pyval) : string :=
  match x with PInt z => pretty z | PStr s => s end.

(** [s.split(sep)] for a separator of one character, the only kind the
    scripts use: every occurrence of [sep] cuts, nothing is merged, and the
    result always has at least one element. *)
Fixpoint split (sep : ascii) (s : string) : list string :=
  match s with
  | EmptyString => [EmptyString]
  | String c s' =>
      if Ascii.eqb c sep then EmptyString :: split sep s'
      else match split sep s' with
           | [] => [String c EmptyString]
           | w :: ws => String c w :: ws
           end
  end.

(** [str.isspace] on one character, for the code points below 256:
    U+0009..U+000D, U+001C..U+0020, U+0085 and U+00A0. *)
Definition isspace (c : ascii) : bool :=
  let n := Ascii.nat_of_ascii c in
  (((9 <=? n) && (n <=? 13)) || ((28 <=? n) && (n <=? 32))
   || (n =? 133) || (n =? 160))%nat.

Fixpoint lstrip (s : string) : string :=
  match s with
  | EmptyString => EmptyString
  | String c s' => if isspace c then lstrip s' else s
  end.

Fixpoint rstrip (s : string) : string :=
  match s with
  | EmptyString => EmptyString
  | String c s' =>
      match rstrip s' with
      | EmptyString => if isspace c then EmptyString else String c EmptyString
      | r => String c r
      end
  end.

(** The one-character string [chr(10)], Python's ["\n"]. *)
Definition nl : string := String (Ascii.ascii_of_nat 10) EmptyString.

(** The one-character string [chr(34)], a double quote. *)
Definition dq : string := String (Ascii.ascii_of_nat 34) EmptyString.

(** [s.strip()] *)
Definition strip (s : string) : string := rstrip (lstrip s).

(** [sep.join(l)] *)
Definition join (sep : string) (l : list string) : string := String.concat sep l.

(** [l[i]] for a non-negative index *)
Definition getitem {A} (l : list A) (i : nat) : result A :=
  match l !! i with Some x => Ok x | None => Raise IndexError end.

(** [l[i] = x] for a non-negative index *)
Definition setitem {A} (l : list A) (i : nat) (x : A) : result (list A) :=
  if decide (i < length l) then Ok (<[i:=x]> l) else Raise IndexError.

(** [enumerate(l)] *)
Definition enumerate {A} (l : list A) : list (nat * A) :=
  zip (seq 0 (length l)) l.

(** [d[k]] on a dict with [str] keys *)
Definition dict_getitem {A} (d : gmap string A) (k : string) : result A :=
  match d !! k with Some x => Ok x | None => Raise (KeyError k) end.

(** [zip(xs, ys)] of two generators of which the second may raise when it
    is advanced.  [zip] advances [xs] first and stops as soon as either is
    exhausted; an exception of [ys] ends the stream of pairs. *)
Fixpoint zip2 {A B} (xs : list A) (ys : list (result B)) : list (result (A * B)) :=
  match xs, ys with
  | [], _ => []
  | _ :: _, [] => []
  | x :: xs', Ok y :: ys' => Ok (x, y) :: zip2 xs' ys'
  | _ :: _, Raise e :: _ => [Raise e]
  end.

(** [for a in items: body(a)] over a generator that may raise, threading
    the state [S] that the body mutates.  The loop ends at the first
    exception, whether the generator or the body raises it; the state keeps
    whatever had been done until then. *)
Fixpoint for_each {A S} (body : A → S → S * option exn)
    (items : list (result A)) (s : S) : S * option exn :=
  match items with
  | [] => (s, None)
  | Raise e :: _ => (s, Some e)
  | Ok a :: rest =>
      match body a s with
      | (s', None) => for_each body rest s'
      | (s', Some e) => (s', Some e)
      end
  end.

(** [for a in l: body(a)] over a list. *)
Definition for_list {A S} (body : A → S → S * option exn)
    (l : list A) (s : S) : S * option exn :=
  for_each body (Ok <$> l) s.

End Py.

(** ** wekatokaggle.py *)

Module wekatokaggle.
Import Py.

Definition CSV_COLS : list string :=
  ["image"; "ALB"; "BET"; "DOL"; "LAG"; "NoF"; "OTHER"; "SHARK"; "YFT"].

(** [{label: index for index, label in enumerate(CSV_COLS)}] *)
Definition CSV_COLS_MAP : gmap string nat :=
  foldl (fun d '(index, label) => <[label:=index]> d) ∅ (enumerate CSV_COLS).

Definition CSV_TITLE : string := join "," CSV_COLS.

(** [image_names_iter]: one stripped name per line of the file. *)
Definition image_names_iter (image_names_file : list string) : list string :=
  (fun line => strip line) <$> image_names_file.

(** The body of the loop of [predictions_csv_iter] for one line. *)
Definition prediction_label (line : string) : result string :=
  val3 ← getitem (split "," line) 2;
  label ← getitem (split ":" val3) 1;
  mret label.

(** [predictions_csv_iter]: the generator yields a label per line, or
    raises at the line it cannot decode. *)
Definition predictions_csv_iter (predictions_file : list string)
  : list (result string) :=
  prediction_label <$> predictions_file.

(** [to_kaggle_record]; as in the source, the parameter [csv_cols] is not
    used: the body reads the globals. *)
Definition to_kaggle_record (csv_cols : list string) (image_name prediction : string)
  : result (list pyval) :=
  let record := replicate (length CSV_COLS) (PInt 0) in
  record ← setitem record 0 (PStr image_name);
  index ← dict_getitem CSV_COLS_MAP prediction;
  record ← setitem record index (PInt 1);
  mret record.

(** The text written for one record. *)
Definition record_line (record : list pyval) : string :=
  join "," (str <$> record) +:+ nl.

(** The body of the [for] loop of [weka_csv_to_kaggle]. *)
Definition write_record (pair : string * string) (output_file : list string)
  : list string * option exn :=
  let '(image_name, prediction) := pair in
  match to_kaggle_record CSV_COLS image_name prediction with
  | Raise e => (output_file, Some e)
  | Ok record => (output_file ++ [record_line record], None)
  end.

(** [weka_csv_to_kaggle], the three [open] calls having succeeded: the
    arguments are the two input files as opened, the result is the content
    of the output file when the function ends and the exception that ended
    it, if any.  [readline] drops the first line of the predictions (and
    nothing when the file is empty); the loop then runs over the [zip] of
    the two generators. *)
Definition weka_csv_to_kaggle (image_names_file predictions_file : list string)
  : list string * option exn :=
  let output_file := [CSV_TITLE +:+ nl] in
  let predictions_file := tail predictions_file in
  for_each write_record
    (zip2 (image_names_iter image_names_file)
          (predictions_csv_iter predictions_file))
    output_file.

(** *** Command line *)

Definition OUTPUT : string := "output.csv".

Inductive Mode : Type := CSV | XML.

Definition Mode_value (m : Mode) : string :=
  match m with CSV => "csv" | XML => "xml" end.

(** [Mode(value)]: the member with that value; [ValueError] when there is
    none.  [parse_args] replaces that exception, so of its message only
    the plain form is kept. *)
Definition Mode_of (value : string) : result Mode :=
  if decide (value = "csv") then Ok CSV
  else if decide (value = "xml") then Ok XML
  else Raise (ValueError ("'" +:+ value +:+ "' is not a valid Mode")).

(** [os.path.isfile] on the text files of the machine. *)
Definition os_path_isfile (fs : gmap string (list string)) (path : string) : bool :=
  bool_decide (is_Some (fs !! path)).

(** [parse_args], with [sys.argv] as [argv]. *)
Definition parse_args (fs : gmap string (list string)) (argv : list string)
  : result (Mode * string * string * string) :=
  let argvlen := length argv in
  if decide (argvlen ∉ [4; 5]) then Raise (ValueError "Wrong number of arguments")
  else
    mode ← getitem argv 1;
    modeEnum ← match Mode_of mode with
               | Raise (ValueError _) =>
                   Raise (ValueError ("Invalid mode: " +:+ dq +:+ mode +:+ dq))
               | r => r
               end;
    predictions ← getitem argv 2;
    image_names ← getitem argv 3;
    let paths := filter (fun path => os_path_isfile fs predictions = false)
                        [predictions; image_names] in
    if decide (paths ≠ []) then Raise (ValueError (join ", " paths))
    else
      output ← (if decide (argvlen = 5) then getitem argv 4 else Ok OUTPUT);
      mret (modeEnum, predictions, image_names, output).

(** *** Vocabulary of the specification *)

(** The fixed Label Set: the columns after the identifier column. *)
Definition LabelSet : list string :=
  ["ALB"; "BET"; "DOL"; "LAG"; "NoF"; "OTHER"; "SHARK"; "YFT"].

(** The substring of [s] that follows the first [c], if [c] occurs. *)
Fixpoint after_first (c : ascii) (s : string) : option string :=
  match s with
  | EmptyString => None
  | String a s' => if Ascii.eqb a c then Some s' else after_first c s'
  end.

(** The part of [s] before the first [c]; all of [s] when [c] does not
    occur. *)
Fixpoint until_first (c : ascii) (s : string) : string :=
  match s with
  | EmptyString => EmptyString
  | String a s' => if Ascii.eqb a c then EmptyString else String a (until_first c s')
  end.

(** The label columns [cols] of a row are one-hot at position [k]. *)
Definition one_hot_at (k : nat) (cols : list pyval) : Prop :=
  k < length LabelSet ∧
  length cols = length LabelSet ∧
  ∀ j, j < length LabelSet →
       cols !! j = Some (PInt (if decide (j = k) then 1 else 0)).

(** The line of the row for the name on [line] with a [1] in column [k] of
    [CSV_COLS]. *)
Definition kaggle_row (line : string) (k : nat) : string :=
  record_line
    (<[k:=PInt 1]> (PStr (strip line) :: replicate (length LabelSet) (PInt 0))).

(** *** The unused helper [parse_predictions_csv] *)

(** What a caller may pass where a path is expected. *)
Inductive pyobj : Type :=
| ObjNone
| ObjStr (s : string)
| ObjList (l : list string).

(** [open(file)] for reading, on the text files [fs] of the machine: only a
    path names a file; [open] rejects a list or [None] with [TypeError]
    before it looks at the file system. *)
Definition open_ (fs : gmap string (list string)) (file : pyobj)
  : result (list string) :=
  match file with
  | ObjStr path =>
      match fs !! path with
      | Some lines => Ok lines
      | None => Raise (FileNotFoundError path)
      end
  | ObjList _ | ObjNone => Raise TypeError
  end.

(** Reading a local variable: [None] is a name not assigned yet. *)
Definition local (name : string) (v : option string) : result string :=
  match v with Some x => Ok x | None => Raise (UnboundLocalError name) end.

(** [del l[0]] *)
Definition delitem0 {A} (l : list A) : result (list A) :=
  match l with [] => Raise IndexError | _ :: l' => Ok l' end.

(** The [for line in f] loop of [parse_predictions_csv]; [label] is the
    local variable of that name, [predictions] the list being filled. *)
Fixpoint parse_predictions_loop (f : list string) (label : option string)
    (predictions : list string) : result (list string) :=
  match f with
  | [] => Ok predictions
  | line :: f' =>
      val3 ← getitem (split "," line) 2;
      label_read ← local "label" label;
      label' ← getitem (split ":" label_read) 1;
      parse_predictions_loop f' (Some label') (predictions ++ [label'])
  end.

(** Everything [parse_predictions_csv] does once the file is open. *)
Definition parse_predictions_rest (f : list string) : result (list string) :=
  predictions ← parse_predictions_loop f None [];
  predictions ← delitem0 predictions;
  mret predictions.

(** [parse_predictions_csv]: the parameter is rebound to the empty list,
    and that list is what [open] receives. *)
Definition parse_predictions_csv (fs : gmap string (list string))
    (predictions : pyobj) : result (list string) :=
  let predictions := ObjList [] in
  f ← open_ fs predictions;
  parse_predictions_rest f.

End wekatokaggle.

(** ** imgtocsv.py *)

Module imgtocsv.
Import Py.

Definition SYMLINK_DIR : string := "images".
Definition IMAGES_TRAIN_CSV : string := "images_train.csv".
Definition IMAGES_TEST_CSV : string := "images_test.csv".
Definition CSV_TITLE : string := "imgfile,class".

(** *** The input tree

    The input is read through [os.listdir], [os.path.isdir] and
    [os.path.isfile] only.  It is a table from paths to what is there: a
    regular file, or a directory with its listing in the order in which
    [os.listdir] returns it.  A path that is not in the table (or a listed
    name with nothing behind it) is neither a file nor a directory. *)
Inductive entry : Type :=
| RegularFile
| Directory (listing : list string).

Definition startswith_sep (s : string) : bool :=
  match s with
  | String c _ => Ascii.eqb c "/"
  | EmptyString => false
  end.

Fixpoint endswith_sep (s : string) : bool :=
  match s with
  | EmptyString => false
  | String c EmptyString => Ascii.eqb c "/"
  | String _ s' => endswith_sep s'
  end.

(** [os.path.join(a, b)] (POSIX) *)
Definition os_path_join (a b : string) : string :=
  if startswith_sep b then b
  else if bool_decide (a = "") || endswith_sep a then a +:+ b
  else a +:+ "/" +:+ b.

Definition os_listdir (fs : gmap string entry) (path : string)
  : result (list string) :=
  match fs !! path with
  | Some (Directory listing) => Ok listing
  | Some RegularFile => Raise (NotADirectoryError path)
  | None => Raise (FileNotFoundError path)
  end.

Definition os_path_isdir (fs : gmap string entry) (path : string) : bool :=
  match fs !! path with Some (Directory _) => true | _ => false end.

Definition os_path_isfile (fs : gmap string entry) (path : string) : bool :=
  match fs !! path with Some RegularFile => true | _ => false end.

(** *** The output location

    The scripts run with the output directory as working directory and
    touch it through [os.mkdir], [open(_, "w")], [write] and [os.symlink].
    [cwd] records the directories made there, the regular files by name
    with the strings written to them, and the links by path with their
    targets.  Names of different kinds are taken not to clash. *)
Record cwd : Type := Cwd {
  dirs : gset string;
  files : gmap string (list string);
  symlinks : gmap string string
}.

(** [os.mkdir(path, 0o755)] *)
Definition os_mkdir (path : string) (w : cwd) : cwd * option exn :=
  if decide (path ∈ dirs w) then (w, Some (FileExistsError path))
  else (Cwd ({[path]} ∪ dirs w) (files w) (symlinks w), None).

(** [open(path, "w")]: the file is created or emptied. *)
Definition open_w (path : string) (w : cwd) : cwd :=
  Cwd (dirs w) (<[path:=[]]> (files w)) (symlinks w).

(** [f.write(s)] on the file opened at [path]. *)
Definition write (path : string) (s : string) (w : cwd) : cwd :=
  Cwd (dirs w) (<[path:=default [] (files w !! path) ++ [s]]> (files w))
      (symlinks w).

(** [os.symlink(src, dst)]: a link is never replaced. *)
Definition os_symlink (src dst : string) (w : cwd) : cwd * option exn :=
  match symlinks w !! dst with
  | Some _ => (w, Some (FileExistsError dst))
  | None => (Cwd (dirs w) (files w) (<[dst:=src]> (symlinks w)), None)
  end.

(** [sorted(l)] on strings: ascending by code points.  The order is total
    and antisymmetric, so the sorted list does not depend on the sorting
    algorithm. *)
Definition sorted (l : list string) : list string := merge_sort String.le l.

(** *** The functions of the script *)

Definition get_subdirs (fs : gmap string entry) (directory : string)
  : result (list string) :=
  names ← os_listdir fs directory;
  let subdirs :=
    filter (fun subdir => os_path_isdir fs (os_path_join directory subdir) = true)
           names in
  if decide (length subdirs = 0)
  then Raise (ValueError ("There were no subdirectories found under:" +:+ nl
                          +:+ directory))
  else Ok subdirs.

(** The body of the inner loop of [training_set_csv]. *)
Definition training_img (fs : gmap string entry) (subdir subdir_path img : string)
    (w : cwd) : cwd * option exn :=
  let img_path := os_path_join subdir_path img in
  if os_path_isfile fs img_path then
    let w := write IMAGES_TRAIN_CSV (img +:+ "," +:+ subdir +:+ nl) w in
    os_symlink img_path (os_path_join SYMLINK_DIR img) w
  else (w, None).

(** The body of the outer loop of [training_set_csv]. *)
Definition training_subdir (fs : gmap string entry) (input_dir subdir : string)
    (w : cwd) : cwd * option exn :=
  let subdir_path := os_path_join input_dir subdir in
  match os_listdir fs subdir_path with
  | Raise e => (w, Some e)
  | Ok imgs => for_list (training_img fs subdir subdir_path) imgs w
  end.

Definition training_set_csv (fs : gmap string entry) (input_dir : string)
    (w : cwd) : cwd * option exn :=
  match get_subdirs fs input_dir with
  | Raise e => (w, Some e)
  | Ok subdirs =>
      match os_mkdir SYMLINK_DIR w with
      | (w, None) | (w, Some (FileExistsError _)) =>
          let w := open_w IMAGES_TRAIN_CSV w in
          let w := write IMAGES_TRAIN_CSV (CSV_TITLE +:+ nl) w in
          for_list (training_subdir fs input_dir) subdirs w
      | (w, Some e) => (w, Some e)
      end
  end.

(** The body of the loop of [test_set_csv]. *)
Definition test_img (fs : gmap string entry) (input_dir img : string)
    (w : cwd) : cwd * option exn :=
  let img_path := os_path_join input_dir img in
  if os_path_isfile fs img_path then
    (write IMAGES_TEST_CSV (img +:+ ",0" +:+ nl) w, None)
  else (w, None).

Definition test_set_csv (fs : gmap string entry) (input_dir : string)
    (w : cwd) : cwd * option exn :=
  let w := open_w IMAGES_TEST_CSV w in
  let w := write IMAGES_TEST_CSV (CSV_TITLE +:+ nl) w in
  match os_listdir fs input_dir with
  | Raise e => (w, Some e)
  | Ok names => for_list (test_img fs input_dir) (sorted names) w
  end.

(** *** Command line *)

Definition OUTPUT_DIR : string := "output".

Inductive Mode : Type := TRAIN | TEST.

Definition Mode_value (m : Mode) : string :=
  match m with TRAIN => "train" | TEST => "test" end.

(** [Mode(value)]: the member with that value; [ValueError] when there is
    none.  [parse_args] replaces that exception, so of its message only
    the plain form is kept. *)
Definition Mode_of (value : string) : result Mode :=
  if decide (value = "train") then Ok TRAIN
  else if decide (value = "test") then Ok TEST
  else Raise (ValueError ("'" +:+ value +:+ "' is not a valid Mode")).

(** [parse_args], with [sys.argv] as [argv]. *)
Definition parse_args (argv : list string) : result (Mode * string * string) :=
  let argvlen := length argv in
  if decide (argvlen ∉ [3; 4]) then Raise (ValueError "Wrong number of arguments")
  else
    mode ← getitem argv 1;
    modeEnum ← match Mode_of mode with
               | Raise (ValueError _) =>
                   Raise (ValueError ("Invalid mode: " +:+ dq +:+ mode +:+ dq))
               | r => r
               end;
    output_dir ← (if decide (argvlen = 4) then getitem argv 3 else Ok OUTPUT_DIR);
    input_dir ← getitem argv 2;
    mret (modeEnum, input_dir, output_dir).

(** *** Vocabulary of the specification *)

(** The regular files directly inside the label folder [subdir], in the
    order of its listing. *)
Definition images_of (fs : gmap string entry) (input_dir subdir : string)
  : list string :=
  let subdir_path := os_path_join input_dir subdir in
  match os_listdir fs subdir_path with
  | Ok imgs =>
      filter (fun img => os_path_isfile fs (os_path_join subdir_path img) = true)
             imgs
  | Raise _ => []
  end.

(** The files of a labeled tree as (filename, label), grouped by label in
    the order of [subdirs], and within a label in listing order. *)
Definition labeled_files (fs : gmap string entry) (input_dir : string)
    (subdirs : list string) : list (string * string) :=
  subdirs ≫= fun subdir =>
    (fun img => (img, subdir)) <$> images_of fs input_dir subdir.

(** The original path of a labeled file. *)
Definition original_path (input_dir : string) (file : string * string) : string :=
  os_path_join (os_path_join input_dir file.2) file.1.

(** The manifest row of a labeled file. *)
Definition manifest_row (file : string * string) : string :=
  file.1 +:+ "," +:+ file.2 +:+ nl.

(** The link of a labeled file: where it is made and where it points. *)
Definition link_of (input_dir : string) (file : string * string)
  : string * string :=
  (os_path_join SYMLINK_DIR file.1, original_path input_dir file).

(** What [training_set_csv] does for one regular file: the row, then the
    link. *)
Definition add_file (input_dir : string) (file : string * string) (w : cwd)
  : cwd * option exn :=
  os_symlink (original_path input_dir file) (os_path_join SYMLINK_DIR file.1)
             (write IMAGES_TRAIN_CSV (manifest_row file) w).

(** The output location after the rows and links of [done] were added to a
    manifest that held [rows] before. *)
Definition added (input_dir : string) (done : list (string * string))
    (rows : list string) (w : cwd) : cwd :=
  Cwd (dirs w)
      (<[IMAGES_TRAIN_CSV:=rows ++ (manifest_row <$> done)]> (files w))
      (list_to_map (link_of input_dir <$> done) ∪ symlinks w).

(** The manifest row of an unlabeled file: the placeholder is "0". *)
Definition test_row (img : string) : string := img +:+ "," +:+ "0" +:+ nl.

(** The output location [w'] keeps what [w] held apart from the file
    [name]: every link with its target, every directory, and every other
    file with its content. *)
Definition keeps (name : string) (w w' : cwd) : Prop :=
  symlinks w ⊆ symlinks w'
  ∧ dirs w ⊆ dirs w'
  ∧ ∀ other, other ≠ name → files w' !! other = files w !! other.

(** *** Example trees *)

(** Two labels; [CAR] lists a nested folder and [notes.txt] lies beside the
    label folders. *)
Definition example_tree : gmap string entry :=
  list_to_map
    [("/data", Directory ["SHIP"; "notes.txt"; "CAR"]);
     ("/data/notes.txt", RegularFile);
     ("/data/SHIP", Directory ["b.jpg"]);
     ("/data/SHIP/b.jpg", RegularFile);
     ("/data/CAR", Directory ["z.jpg"; "old"; "a.jpg"]);
     ("/data/CAR/z.jpg", RegularFile);
     ("/data/CAR/old", Directory ["c.jpg"]);
     ("/data/CAR/old/c.jpg", RegularFile);
     ("/data/CAR/a.jpg", RegularFile)].

(** Two labels that both hold a file named [a.jpg]. *)
Definition collision_tree : gmap string entry :=
  list_to_map
    [("/data", Directory ["CAR"; "SHIP"]);
     ("/data/CAR", Directory ["a.jpg"]);
     ("/data/CAR/a.jpg", RegularFile);
     ("/data/SHIP", Directory ["a.jpg"]);
     ("/data/SHIP/a.jpg", RegularFile)].

(** An output location with nothing in it. *)
Definition empty_cwd : cwd := Cwd ∅ ∅ ∅.

End imgtocsv.

(** ** Properties of the prediction remapper *)

Section wekatokaggle_properties.
Import Py wekatokaggle.

Lemma CSV_COLS_LabelSet : CSV_COLS = "image" :: LabelSet.
Proof. reflexivity. Qed.

Lemma CSV_COLS_MAP_list :
  CSV_COLS_MAP = list_to_map (prod_swap <$> enumerate CSV_COLS).
Proof. reflexivity. Qed.

Lemma elem_of_enumerate {A} (l : list A) (i : nat) (x : A) :
  (i, x) ∈ enumerate l ↔ l !! i = Some x.
Proof.
  unfold enumerate. rewrite list_elem_of_lookup. split.
  - intros [j Hj]. apply lookup_zip_with_Some in Hj.
    destruct Hj as (i' & x' & Heq & Hi & Hx). injection Heq as -> ->.
    apply lookup_seq in Hi as [-> _]. exact Hx.
  - intros Hx. exists i. apply lookup_zip_with_Some. exists i, x.
    split; [reflexivity|]. split; [|exact Hx].
    apply lookup_seq. split; [reflexivity|]. eapply lookup_lt_Some, Hx.
Qed.

(** The dict maps a string to [k] exactly when it is column [k]. *)
Lemma CSV_COLS_MAP_lookup (label : string) (k : nat) :
  CSV_COLS_MAP !! label = Some k ↔ CSV_COLS !! k = Some label.
Proof.
  rewrite CSV_COLS_MAP_list, <- elem_of_list_to_map.
  - rewrite <- elem_of_enumerate, list_elem_of_fmap. split.
    + intros [[i x] [Heq Hin]]. simpl in Heq. by injection Heq as -> ->.
    + intros Hin. by exists (k, label).
  - apply (bool_decide_unpack _). vm_compute. exact I.
Qed.

Lemma CSV_COLS_MAP_None (label : string) :
  label ∉ CSV_COLS → CSV_COLS_MAP !! label = None.
Proof.
  intros Hnot. destruct (CSV_COLS_MAP !! label) as [k|] eqn:Hk; [|done].
  apply CSV_COLS_MAP_lookup in Hk. destruct Hnot.
  eapply list_elem_of_lookup_2, Hk.
Qed.

(** [split] cuts at the first separator and goes on with what follows. *)
Lemma split_first (c : ascii) (s : string) :
  split c s =
  until_first c s ::
    match after_first c s with Some rest => split c rest | None => [] end.
Proof.
  induction s as [|a s IH]; simpl; [done|].
  destruct (Ascii.eqb a c); [done|]. by rewrite IH.
Qed.

Lemma until_first_absent (c : ascii) (s : string) :
  after_first c s = None → until_first c s = s.
Proof.
  induction s as [|a s IH]; simpl; [done|].
  destruct (Ascii.eqb a c); [done|]. intros H. by rewrite IH.
Qed.

(** The second value of [val3.split(":")]. *)
Lemma split_colon_1 (val3 rest : string) :
  after_first ":" val3 = Some rest →
  getitem (split ":" val3) 1 = Ok (until_first ":" rest).
Proof.
  intros H. rewrite split_first, H. by rewrite (split_first _ rest).
Qed.

Lemma split_colon_1_absent (val3 : string) :
  after_first ":" val3 = None → getitem (split ":" val3) 1 = Raise IndexError.
Proof. intros H. by rewrite split_first, H. Qed.

Lemma prediction_label_field (line val3 : string) :
  split "," line !! 2 = Some val3 →
  prediction_label line = getitem (split ":" val3) 1.
Proof.
  intros H. unfold prediction_label.
  replace (getitem (split "," line) 2) with (Ok val3)
    by (unfold getitem; by rewrite H).
  simpl. by destruct (getitem (split ":" val3) 1).
Qed.

Lemma to_kaggle_record_column (csv_cols : list string)
    (image_name prediction : string) (k : nat) :
  CSV_COLS !! k = Some prediction →
  to_kaggle_record csv_cols image_name prediction =
  Ok (<[k:=PInt 1]> (PStr image_name :: replicate (length LabelSet) (PInt 0))).
Proof.
  intros Hk. unfold to_kaggle_record, dict_getitem.
  apply CSV_COLS_MAP_lookup in Hk as Hmap. simpl. rewrite Hmap. simpl.
  unfold setitem. apply lookup_lt_Some in Hk.
  rewrite decide_True; [done|]. exact Hk.
Qed.

Lemma to_kaggle_record_unknown (csv_cols : list string)
    (image_name prediction : string) :
  prediction ∉ CSV_COLS →
  to_kaggle_record csv_cols image_name prediction = Raise (KeyError prediction).
Proof.
  intros Hk. unfold to_kaggle_record, dict_getitem.
  simpl. by rewrite (CSV_COLS_MAP_None _ Hk).
Qed.

(** The pairing loop over a prefix of well-formed pairs: it writes their
    rows and goes on with what follows. *)
Lemma weka_loop_prefix (names preds : list string) (ks : list nat) :
  Forall2 (fun line k => ∃ label,
             prediction_label line = Ok label ∧ CSV_COLS !! k = Some label)
          preds ks →
  length names = length preds →
  ∀ (names' preds' out : list string),
    for_each write_record
      (zip2 (image_names_iter (names ++ names'))
            (predictions_csv_iter (preds ++ preds'))) out =
    for_each write_record
      (zip2 (image_names_iter names') (predictions_csv_iter preds'))
      (out ++ zip_with kaggle_row names ks).
Proof.
  intros Hall. revert names.
  induction Hall as [|line k preds ks (label & Hlabel & Hk) _ IH];
    intros [|name names] Hlen names' preds' out; try discriminate.
  - simpl. by rewrite app_nil_r.
  - simpl in Hlen. injection Hlen as Hlen. simpl. rewrite Hlabel. simpl.
    rewrite (to_kaggle_record_column _ _ _ _ Hk).
    rewrite (IH names Hlen). unfold kaggle_row at 2.
    by rewrite <- app_assoc.
Qed.

(** Labels of the Label Set have a position in it. *)
Lemma LabelSet_positions (preds labels : list string) :
  Forall2 (fun line label => prediction_label line = Ok label ∧ label ∈ LabelSet)
          preds labels →
  ∃ ks, Forall2 (fun label k => LabelSet !! k = Some label) labels ks.
Proof.
  induction 1 as [|line label preds labels [_ Hin] _ [ks IH]].
  - by exists [].
  - apply list_elem_of_lookup in Hin as [k Hk]. exists (k :: ks).
    by constructor.
Qed.

Lemma one_hot_at_insert (k : nat) :
  k < length LabelSet →
  one_hot_at k (<[k:=PInt 1]> (replicate (length LabelSet) (PInt 0))).
Proof.
  intros Hk. split; [done|]. split.
  - by rewrite length_insert, length_replicate.
  - intros j Hj. destruct (decide (j = k)) as [->|Hne].
    + apply list_lookup_insert_eq. by rewrite length_replicate.
    + rewrite list_lookup_insert_ne by done. by apply lookup_replicate_2.
Qed.

(** Pairing looks at no more than the common length of the two streams. *)
Lemma zip2_truncate {A B C D} (f : A → B) (g : C → result D)
    (xs : list A) (ys : list C) :
  zip2 (f <$> xs) (g <$> ys) =
  zip2 (f <$> take (length xs `min` length ys) xs)
       (g <$> take (length xs `min` length ys) ys).
Proof.
  revert ys. induction xs as [|x xs IH]; intros [|y ys]; simpl; try done.
  destruct (g y); [|done]. f_equal. apply IH.
Qed.

Lemma tail_take {A} (n : nat) (l : list A) : tail (take (S n) l) = take n (tail l).
Proof. destruct l; [by destruct n|done]. Qed.

Lemma weka_truncate (image_names_file predictions_file : list string) :
  let m := length image_names_file `min` length (tail predictions_file) in
  weka_csv_to_kaggle image_names_file predictions_file =
  weka_csv_to_kaggle (take m image_names_file) (take (S m) predictions_file).
Proof.
  intros m. unfold weka_csv_to_kaggle. rewrite tail_take.
  unfold image_names_iter, predictions_csv_iter.
  by rewrite zip2_truncate.
Qed.

Lemma Forall_columns (lines : list string) :
  Forall (fun line => ∃ label,
            prediction_label line = Ok label ∧ label ∈ CSV_COLS) lines →
  ∃ ks, Forall2 (fun line k => ∃ label,
                   prediction_label line = Ok label ∧ CSV_COLS !! k = Some label)
                lines ks.
Proof.
  induction 1 as [|line lines (label & Hlabel & Hin) _ [ks IH]].
  - by exists [].
  - apply list_elem_of_lookup in Hin as [k Hk]. exists (k :: ks).
    constructor; [|done]. by exists label.
Qed.

(** An unknown label ends the run with [KeyError] after the rows of the
    pairs before it, and nothing is written for its own pair. *)
Lemma weka_unknown_label (names preds : list string) (ks : list nat)
    (title name line label : string) (names' preds' : list string) :
  Forall2 (fun line k => ∃ label,
             prediction_label line = Ok label ∧ CSV_COLS !! k = Some label)
          preds ks →
  length names = length preds →
  prediction_label line = Ok label →
  label ∉ CSV_COLS →
  weka_csv_to_kaggle (names ++ name :: names') (title :: preds ++ line :: preds') =
  ((CSV_TITLE +:+ nl) :: zip_with kaggle_row names ks, Some (KeyError label)).
Proof.
  intros Hall Hlen Hlabel Hnot. unfold weka_csv_to_kaggle. simpl tail.
  rewrite (weka_loop_prefix _ _ _ Hall Hlen). simpl. rewrite Hlabel. simpl.
  by rewrite (to_kaggle_record_unknown _ _ _ Hnot).
Qed.

(** C1 (refuted as stated): on the example of the specification the run
    does not produce the three stated lines without an error. *)
Lemma C1_example_refuted :
  weka_csv_to_kaggle
    ["f1.jpg" +:+ nl; "f2.jpg" +:+ nl]
    ["header" +:+ nl; "x,y,0.9:DOL" +:+ nl; "x,y,0.1:YFT" +:+ nl]
  ≠ (["image,ALB,BET,DOL,LAG,NoF,OTHER,SHARK,YFT" +:+ nl;
      "f1.jpg,0,0,1,0,0,0,0,0" +:+ nl;
      "f2.jpg,0,0,0,0,0,0,0,1" +:+ nl], None).
Proof. vm_compute. intros H. discriminate H. Qed.

(** C1 (amended): on the example of the specification the third field is
    the last of its line, so the decoded label keeps the line terminator:
    the run writes the header line only and ends with [KeyError] for the
    label "DOL" followed by a newline.  When a fourth field follows the
    third on each prediction line, the run writes exactly the three stated
    lines and raises nothing. *)
Theorem C1_example_amended :
  weka_csv_to_kaggle
    ["f1.jpg" +:+ nl; "f2.jpg" +:+ nl]
    ["header" +:+ nl; "x,y,0.9:DOL" +:+ nl; "x,y,0.1:YFT" +:+ nl]
  = (["image,ALB,BET,DOL,LAG,NoF,OTHER,SHARK,YFT" +:+ nl],
     Some (KeyError ("DOL" +:+ nl)))
  ∧
  weka_csv_to_kaggle
    ["f1.jpg" +:+ nl; "f2.jpg" +:+ nl]
    ["header" +:+ nl; "x,y,0.9:DOL,z" +:+ nl; "x,y,0.1:YFT,z" +:+ nl]
  = (["image,ALB,BET,DOL,LAG,NoF,OTHER,SHARK,YFT" +:+ nl;
      "f1.jpg,0,0,1,0,0,0,0,0" +:+ nl;
      "f2.jpg,0,0,0,0,0,0,0,1" +:+ nl], None).
Proof. split; vm_compute; reflexivity. Qed.

(** C2 (refuted as stated): a third field with two colons.  The substring
    after its first colon is "DOL:x", the decoded label is "DOL". *)
Lemma C2_label_refuted :
  split "," "1,2,3:DOL:x,+" !! 2 = Some "3:DOL:x"
  ∧ after_first ":" "3:DOL:x" = Some "DOL:x"
  ∧ prediction_label "1,2,3:DOL:x,+" = Ok "DOL"
  ∧ prediction_label "1,2,3:DOL:x,+" ≠ Ok "DOL:x".
Proof. repeat split; try reflexivity. vm_compute. intros H. discriminate H. Qed.

(** C2 (amended): for a prediction line whose third comma-delimited field
    [val3] contains a colon, the decoded label is the part of what follows
    the first colon of [val3] that precedes the next colon; it is all of
    what follows the first colon when there is no further colon.  The first
    line of the predictions stream is discarded: pairing runs over the
    lines after it, whatever the first line is. *)
Theorem C2_label_amended (line val3 rest : string) :
  split "," line !! 2 = Some val3 →
  after_first ":" val3 = Some rest →
  prediction_label line = Ok (until_first ":" rest)
  ∧ (after_first ":" rest = None → prediction_label line = Ok rest)
  ∧ ∀ (image_names_file : list string) (first_line : string)
      (lines : list string),
      weka_csv_to_kaggle image_names_file (first_line :: lines) =
      for_each write_record
        (zip2 (image_names_iter image_names_file) (predictions_csv_iter lines))
        [CSV_TITLE +:+ nl].
Proof.
  intros Hfield Hcolon.
  assert (prediction_label line = Ok (until_first ":" rest)) as Hlabel.
  { rewrite (prediction_label_field _ _ Hfield). by apply split_colon_1. }
  split; [done|]. split; [|done].
  intros Hnone. by rewrite Hlabel, until_first_absent.
Qed.

Lemma C2_label_amended_witness :
  prediction_label "7,1:ALB,3:DOL,,0.9" = Ok (until_first ":" "DOL")
  ∧ (after_first ":" "DOL" = None →
     prediction_label "7,1:ALB,3:DOL,,0.9" = Ok "DOL")
  ∧ ∀ (image_names_file : list string) (first_line : string)
      (lines : list string),
      weka_csv_to_kaggle image_names_file (first_line :: lines) =
      for_each write_record
        (zip2 (image_names_iter image_names_file) (predictions_csv_iter lines))
        [CSV_TITLE +:+ nl].
Proof.
  apply (C2_label_amended "7,1:ALB,3:DOL,,0.9" "3:DOL" "DOL"); reflexivity.
Defined.

(** C3: when the N prediction lines after the header decode to labels of
    the Label Set and are paired with N names, the output is the header row
    followed by exactly N rows in input order; row [i] is the comma-joined,
    newline-terminated record of [length LabelSet + 1] cells whose first
    cell is the stripped name and whose label columns are one-hot at the
    position of the label in the Label Set. *)
Theorem C3_one_hot_rows (image_names_file : list string) (title_line : string)
    (prediction_lines labels : list string) :
  length image_names_file = length prediction_lines →
  Forall2 (fun line label => prediction_label line = Ok label ∧ label ∈ LabelSet)
          prediction_lines labels →
  ∃ rows : list string,
    weka_csv_to_kaggle image_names_file (title_line :: prediction_lines) =
      (("image,ALB,BET,DOL,LAG,NoF,OTHER,SHARK,YFT" +:+ nl) :: rows, None)
    ∧ length rows = length labels
    ∧ ∀ (i : nat) (line label : string),
        image_names_file !! i = Some line →
        labels !! i = Some label →
        ∃ (k : nat) (cols : list pyval),
          LabelSet !! k = Some label
          ∧ one_hot_at k cols
          ∧ length (PStr (strip line) :: cols) = length LabelSet + 1
          ∧ rows !! i =
            Some (join "," (str <$> PStr (strip line) :: cols) +:+ nl).
Proof.
  intros Hlen Hall.
  destruct (LabelSet_positions _ _ Hall) as [ks Hks].
  assert (Forall2 (fun line k => ∃ label,
             prediction_label line = Ok label ∧ CSV_COLS !! k = Some label)
            prediction_lines (S <$> ks)) as Hcols.
  { clear Hlen. revert ks Hks.
    induction Hall as [|line label preds labels [Hl _] _ IH];
      intros ks Hks; inversion Hks; subst; simpl; constructor; eauto. }
  exists (zip_with kaggle_row image_names_file (S <$> ks)).
  pose proof (Forall2_length _ _ _ Hall) as Hlen1.
  pose proof (Forall2_length _ _ _ Hks) as Hlen2.
  split; [|split].
  - unfold weka_csv_to_kaggle. simpl tail.
    pose proof (weka_loop_prefix _ _ _ Hcols Hlen [] [] [CSV_TITLE +:+ nl]) as H.
    rewrite !app_nil_r in H. rewrite H. reflexivity.
  - rewrite length_zip_with, length_fmap. lia.
  - intros i line label Hline Hlabel.
    destruct (Forall2_lookup_l _ _ _ _ _ Hks Hlabel) as (k & Hk & Hpos).
    exists k, (<[k:=PInt 1]> (replicate (length LabelSet) (PInt 0))).
    split; [done|]. split.
    { apply one_hot_at_insert. eapply lookup_lt_Some, Hpos. }
    split.
    { cbn [length]. rewrite length_insert, length_replicate. lia. }
    rewrite lookup_zip_with, Hline. simpl.
    rewrite list_lookup_fmap, Hk. reflexivity.
Qed.

Lemma C3_one_hot_rows_witness :
  ∃ rows : list string,
    weka_csv_to_kaggle ["a.jpg" +:+ nl; " b.jpg " +:+ nl]
      ["inst#,actual,predicted,error,prediction" +:+ nl;
       "1,1:?,8:YFT,,1" +:+ nl; "2,1:?,1:ALB,,0.7" +:+ nl] =
      (("image,ALB,BET,DOL,LAG,NoF,OTHER,SHARK,YFT" +:+ nl) :: rows, None)
    ∧ length rows = length ["YFT"; "ALB"]
    ∧ ∀ (i : nat) (line label : string),
        ["a.jpg" +:+ nl; " b.jpg " +:+ nl] !! i = Some line →
        ["YFT"; "ALB"] !! i = Some label →
        ∃ (k : nat) (cols : list pyval),
          LabelSet !! k = Some label
          ∧ one_hot_at k cols
          ∧ length (PStr (strip line) :: cols) = length LabelSet + 1
          ∧ rows !! i =
            Some (join "," (str <$> PStr (strip line) :: cols) +:+ nl).
Proof.
  apply (C3_one_hot_rows ["a.jpg" +:+ nl; " b.jpg " +:+ nl]
           ("inst#,actual,predicted,error,prediction" +:+ nl)
           ["1,1:?,8:YFT,,1" +:+ nl; "2,1:?,1:ALB,,0.7" +:+ nl]
           ["YFT"; "ALB"]).
  - reflexivity.
  - repeat constructor; apply (bool_decide_unpack _); vm_compute; exact I.
Defined.

(** C4 (the code at the failing input): the label "image" is not in the
    Label Set, yet the run raises nothing and writes a row whose name cell
    is 1 and whose label columns are all 0. *)
Theorem C4_image_label_not_rejected :
  ("image" ∉ LabelSet)
  ∧ prediction_label ("1,1:?,0:image,,1" +:+ nl) = Ok "image"
  ∧ weka_csv_to_kaggle
      ["f1.jpg" +:+ nl]
      ["inst#,actual,predicted,error,prediction" +:+ nl;
       "1,1:?,0:image,,1" +:+ nl]
    = (["image,ALB,BET,DOL,LAG,NoF,OTHER,SHARK,YFT" +:+ nl;
        "1,0,0,0,0,0,0,0,0" +:+ nl], None).
Proof.
  split; [|split; vm_compute; reflexivity].
  apply (bool_decide_unpack _). vm_compute. exact I.
Qed.

(** C5: when the number M of names differs from the number K of
    prediction lines after the header, the run is the run on the first
    min(M, K) entries of both streams; when the paired prediction lines
    decode to column names, it writes exactly min(M, K) rows after the
    header row and raises nothing. *)
Theorem C5_pairing_stops_at_shorter
    (image_names_file predictions_file : list string) :
  length image_names_file ≠ length (tail predictions_file) →
  Forall (fun line => ∃ label,
            prediction_label line = Ok label ∧ label ∈ CSV_COLS)
         (take (length image_names_file) (tail predictions_file)) →
  let m := length image_names_file `min` length (tail predictions_file) in
  weka_csv_to_kaggle image_names_file predictions_file =
  weka_csv_to_kaggle (take m image_names_file) (take (S m) predictions_file)
  ∧ ∃ rows : list string,
      weka_csv_to_kaggle image_names_file predictions_file =
        ((CSV_TITLE +:+ nl) :: rows, None)
      ∧ length rows = m.
Proof.
  intros _ Hall m. split; [apply weka_truncate|].
  rewrite weka_truncate. fold m.
  assert (Forall (fun line => ∃ label,
            prediction_label line = Ok label ∧ label ∈ CSV_COLS)
            (take m (tail predictions_file))) as Hall'.
  { replace m with (m `min` length image_names_file) by lia.
    rewrite <- take_take. by apply Forall_take. }
  destruct (Forall_columns _ Hall') as [ks Hks].
  pose proof (Forall2_length _ _ _ Hks) as Hlenks.
  assert (length (take m image_names_file) =
          length (take m (tail predictions_file))) as Hlen.
  { rewrite !length_take. lia. }
  exists (zip_with kaggle_row (take m image_names_file) ks). split.
  - unfold weka_csv_to_kaggle. rewrite tail_take.
    pose proof (weka_loop_prefix _ _ _ Hks Hlen [] [] [CSV_TITLE +:+ nl]) as H.
    rewrite !app_nil_r in H. rewrite H. reflexivity.
  - rewrite length_zip_with, <- Hlenks, <- Hlen, length_take. lia.
Qed.

Lemma C5_pairing_stops_at_shorter_witness :
  let image_names_file := ["a.jpg" +:+ nl; "b.jpg" +:+ nl; "c.jpg" +:+ nl] in
  let predictions_file :=
    ["inst#,actual,predicted,error,prediction" +:+ nl;
     "1,1:?,8:YFT,,1" +:+ nl] in
  let m := length image_names_file `min` length (tail predictions_file) in
  weka_csv_to_kaggle image_names_file predictions_file =
  weka_csv_to_kaggle (take m image_names_file) (take (S m) predictions_file)
  ∧ ∃ rows : list string,
      weka_csv_to_kaggle image_names_file predictions_file =
        ((CSV_TITLE +:+ nl) :: rows, None)
      ∧ length rows = m.
Proof.
  apply (C5_pairing_stops_at_shorter
           ["a.jpg" +:+ nl; "b.jpg" +:+ nl; "c.jpg" +:+ nl]
           ["inst#,actual,predicted,error,prediction" +:+ nl;
            "1,1:?,8:YFT,,1" +:+ nl]).
  - simpl. lia.
  - simpl. constructor; [|constructor]. exists "YFT". split; [reflexivity|].
    apply (bool_decide_unpack _). vm_compute. exact I.
Defined.

(** C9: the dict has "image" at index 0, so for the prediction "image"
    [to_kaggle_record] raises nothing and returns a record whose first
    cell is the integer 1, in place of the name, and whose eight label
    columns are all 0: no position of the label columns is one-hot. *)
Theorem C9_image_prediction_overwrites_name (csv_cols : list string)
    (image_name : string) :
  CSV_COLS_MAP !! "image" = Some 0
  ∧ to_kaggle_record csv_cols image_name "image" =
    Ok [PInt 1; PInt 0; PInt 0; PInt 0; PInt 0; PInt 0; PInt 0; PInt 0; PInt 0]
  ∧ ∀ k, ¬ one_hot_at k
             [PInt 0; PInt 0; PInt 0; PInt 0; PInt 0; PInt 0; PInt 0; PInt 0].
Proof.
  split; [reflexivity|]. split; [reflexivity|].
  intros k (Hk & _ & Hcols). specialize (Hcols k Hk).
  rewrite decide_True in Hcols by done.
  do 8 (destruct k as [|k]; [discriminate Hcols|]).
  simpl in Hk. lia.
Qed.

(** C10: [parse_predictions_csv] raises for every argument: [open]
    receives the empty list the parameter was rebound to and raises
    [TypeError].  What follows [open] could not return either: on a line
    with three fields it reads the unassigned local [label], on a shorter
    line the index fails, and on an empty file [del predictions[0]]
    fails. *)
Theorem C10_parse_predictions_csv_raises (fs : gmap string (list string))
    (predictions : pyobj) :
  parse_predictions_csv fs predictions = Raise TypeError
  ∧ parse_predictions_rest [] = Raise IndexError
  ∧ ∀ (line : string) (f : list string),
      parse_predictions_rest (line :: f) =
      match split "," line !! 2 with
      | Some val3 => Raise (UnboundLocalError "label")
      | None => Raise IndexError
      end.
Proof.
  split; [reflexivity|]. split; [reflexivity|].
  intros line f. unfold parse_predictions_rest. simpl.
  unfold getitem. by destruct (split "," line !! 2).
Qed.

End wekatokaggle_properties.

(** ** Properties of the manifest builder *)

Section imgtocsv_properties.
Import Py imgtocsv.

Lemma for_list_app {A S} (body : A → S → S * option exn) (l1 l2 : list A) (s : S) :
  for_list body (l1 ++ l2) s =
  match for_list body l1 s with
  | (s', None) => for_list body l2 s'
  | (s', Some e) => (s', Some e)
  end.
Proof.
  unfold for_list. revert s. induction l1 as [|a l1 IH]; intros s; simpl; [done|].
  destruct (body a s) as [s' [e|]]; [done|]. apply IH.
Qed.

Lemma for_list_cons {A S} (body : A → S → S * option exn) (a : A) (l : list A)
    (s : S) :
  for_list body (a :: l) s =
  match body a s with
  | (s', None) => for_list body l s'
  | (s', Some e) => (s', Some e)
  end.
Proof. reflexivity. Qed.

Lemma labeled_files_cons (fs : gmap string entry) (input_dir subdir : string)
    (subdirs : list string) :
  labeled_files fs input_dir (subdir :: subdirs) =
  ((fun img => (img, subdir)) <$> images_of fs input_dir subdir)
  ++ labeled_files fs input_dir subdirs.
Proof. reflexivity. Qed.

(** [os.path.join(SYMLINK_DIR, _)] keeps different names apart. *)
Lemma symlink_path_inj (a b : string) :
  os_path_join SYMLINK_DIR a = os_path_join SYMLINK_DIR b → a = b.
Proof.
  unfold os_path_join. simpl.
  destruct a as [|c a], b as [|d b]; simpl; try done.
  - destruct (Ascii.eqb_spec d "/") as [->|_]; intros H; discriminate H.
  - destruct (Ascii.eqb_spec c "/") as [->|_]; intros H; discriminate H.
  - destruct (Ascii.eqb_spec c "/") as [->|_],
             (Ascii.eqb_spec d "/") as [->|_]; intros H;
      try discriminate H; by simplify_eq.
Qed.

(** The inner loop adds the regular files of the folder, in listing
    order. *)
Lemma training_imgs_flat (fs : gmap string entry) (input_dir subdir : string)
    (imgs : list string) (w : cwd) :
  for_list (training_img fs subdir (os_path_join input_dir subdir)) imgs w =
  for_list (add_file input_dir)
    ((fun img => (img, subdir)) <$>
       filter (fun img => os_path_isfile fs
                 (os_path_join (os_path_join input_dir subdir) img) = true) imgs)
    w.
Proof.
  unfold for_list. revert w. induction imgs as [|img imgs IH]; intros w; [done|].
  rewrite filter_cons. simpl. unfold training_img at 1.
  destruct (os_path_isfile fs _) eqn:Hfile.
  - rewrite decide_True by done. simpl.
    replace (add_file input_dir (img, subdir) w)
      with (os_symlink (os_path_join (os_path_join input_dir subdir) img)
              (os_path_join SYMLINK_DIR img)
              (write IMAGES_TRAIN_CSV (img +:+ "," +:+ subdir +:+ nl) w))
      by reflexivity.
    destruct (os_symlink _ _ _) as [w' [e|]]; [done|]. apply IH.
  - rewrite decide_False by (by intros H). apply IH.
Qed.

(** The two nested loops add the labeled files one after the other. *)
Lemma training_subdirs_flat (fs : gmap string entry) (input_dir : string)
    (subdirs : list string) (w : cwd) :
  Forall (fun subdir => os_path_isdir fs (os_path_join input_dir subdir) = true)
         subdirs →
  for_list (training_subdir fs input_dir) subdirs w =
  for_list (add_file input_dir) (labeled_files fs input_dir subdirs) w.
Proof.
  intros Hdirs. revert w.
  induction Hdirs as [|subdir subdirs Hdir _ IH]; intros w; [done|].
  rewrite labeled_files_cons, for_list_app, for_list_cons.
  assert (training_subdir fs input_dir subdir w =
          for_list (add_file input_dir)
            ((fun img => (img, subdir)) <$> images_of fs input_dir subdir) w)
    as ->.
  { unfold training_subdir, images_of, os_path_isdir, os_listdir in *.
    destruct (fs !! os_path_join input_dir subdir) as [[|imgs]|];
      try discriminate.
    apply training_imgs_flat. }
  destruct (for_list (add_file input_dir) _ w) as [w' [e|]]; [done|]. apply IH.
Qed.

Lemma link_keys (input_dir : string) (fl : list (string * string)) :
  (link_of input_dir <$> fl).*1 = os_path_join SYMLINK_DIR <$> fl.*1.
Proof. rewrite <- !list_fmap_compose. by apply list_fmap_ext. Qed.

Lemma NoDup_link_keys (input_dir : string) (fl : list (string * string)) :
  NoDup fl.*1 → NoDup (link_of input_dir <$> fl).*1.
Proof.
  intros Hnd. rewrite link_keys. apply NoDup_fmap_2_strong; [|done].
  intros a b _ _. apply symlink_path_inj.
Qed.

(** Files whose names are new and pairwise different are all added: each
    gets its row and its link. *)
Lemma add_files_fresh (input_dir : string) (fl : list (string * string))
    (rows : list string) (w : cwd) :
  NoDup fl.*1 →
  (∀ file, file ∈ fl → symlinks w !! os_path_join SYMLINK_DIR file.1 = None) →
  files w !! IMAGES_TRAIN_CSV = Some rows →
  for_list (add_file input_dir) fl w = (added input_dir fl rows w, None).
Proof.
  revert rows w. induction fl as [|file fl IH]; intros rows w Hnd Hfresh Hrows.
  - unfold added, for_list. simpl. destruct w as [d f l]. simpl in *.
    by rewrite app_nil_r, insert_id, (left_id_L ∅ (∪)).
  - rewrite fmap_cons in Hnd. apply NoDup_cons in Hnd as [Hnew Hnd].
    rewrite for_list_cons. unfold add_file at 1, os_symlink. simpl.
    rewrite (Hfresh file) by apply list_elem_of_here. rewrite Hrows. simpl.
    rewrite (IH (rows ++ [manifest_row file])); simpl; try done.
    + f_equal. unfold added. simpl. f_equal.
      * by rewrite insert_insert_eq, <- app_assoc.
      * rewrite <- insert_union_l. symmetry. apply insert_union_r.
        apply not_elem_of_list_to_map_1. rewrite link_keys.
        intros Hin. apply list_elem_of_fmap in Hin as [name [Heq Hin]].
        apply symlink_path_inj in Heq as <-. done.
    + intros file' Hin. rewrite lookup_insert_ne.
      * apply Hfresh. by apply list_elem_of_further.
      * intros Heq. apply symlink_path_inj in Heq. apply Hnew. rewrite Heq.
        by apply list_elem_of_fmap_2.
    + apply lookup_insert_eq.
Qed.

(** A file whose name repeats the name of an added file ends the loop: its
    row is written, then [os.symlink] raises. *)
Lemma add_files_collision (input_dir : string) (done : list (string * string))
    (file : string * string) (rest : list (string * string))
    (rows : list string) (w : cwd) :
  NoDup done.*1 →
  (∀ file, file ∈ done → symlinks w !! os_path_join SYMLINK_DIR file.1 = None) →
  files w !! IMAGES_TRAIN_CSV = Some rows →
  file.1 ∈ done.*1 →
  for_list (add_file input_dir) (done ++ file :: rest) w =
  (write IMAGES_TRAIN_CSV (manifest_row file) (added input_dir done rows w),
   Some (FileExistsError (os_path_join SYMLINK_DIR file.1))).
Proof.
  intros Hnd Hfresh Hrows Hin.
  rewrite for_list_app, (add_files_fresh _ _ rows) by done.
  rewrite for_list_cons. unfold add_file, os_symlink. simpl.
  apply list_elem_of_fmap in Hin as [earlier [Heq Hin]].
  erewrite lookup_union_Some_l; [done|].
  apply elem_of_list_to_map_1; [by apply NoDup_link_keys|].
  apply list_elem_of_fmap. exists earlier. split; [|done].
  unfold link_of. by rewrite Heq.
Qed.

(** A list with a repeated key splits at the first repetition. *)
Lemma first_duplicate {A B} `{EqDecision A} (l : list (A * B)) :
  ¬ NoDup l.*1 →
  ∃ done x rest, l = done ++ x :: rest ∧ NoDup done.*1 ∧ x.1 ∈ done.*1.
Proof.
  induction l as [|x l IH] using rev_ind; intros Hdup.
  - destruct Hdup. constructor.
  - destruct (decide (NoDup l.*1)) as [Hnd|Hnd].
    + exists l, x, []. split; [done|]. split; [done|].
      destruct (decide (x.1 ∈ l.*1)) as [Hin|Hnin]; [done|].
      destruct Hdup. rewrite fmap_app. apply NoDup_app. split; [done|].
      split; [|apply NoDup_singleton].
      intros y Hy Hy'. apply list_elem_of_singleton in Hy'. by subst.
    + destruct (IH Hnd) as (done & y & rest & -> & Hdone & Hy).
      exists done, y, (rest ++ [x]). split; [|done].
      by rewrite <- app_assoc.
Qed.

Lemma get_subdirs_Ok (fs : gmap string entry) (input_dir : string)
    (subdirs : list string) :
  get_subdirs fs input_dir = Ok subdirs →
  subdirs ≠ []
  ∧ Forall (fun subdir => os_path_isdir fs (os_path_join input_dir subdir) = true)
           subdirs
  ∧ ∃ listing,
      os_listdir fs input_dir = Ok listing
      ∧ subdirs =
        filter (fun subdir =>
                  os_path_isdir fs (os_path_join input_dir subdir) = true)
               listing.
Proof.
  unfold get_subdirs. destruct (os_listdir fs input_dir) as [listing|e]; [|done].
  simpl. case_decide as Hlen; [done|]. intros [= <-]. split.
  - intros Hnil. by rewrite Hnil in Hlen.
  - split; [|by exists listing].
    apply Forall_forall. intros subdir Hin. by apply list_elem_of_filter in Hin as [? _].
Qed.

(** Once the label folders are known, [training_set_csv] makes the link
    folder, starts the manifest with the title and adds the labeled files
    in order. *)
Lemma training_set_csv_flat (fs : gmap string entry) (input_dir : string)
    (subdirs : list string) (w : cwd) :
  get_subdirs fs input_dir = Ok subdirs →
  ∃ w0, files w0 !! IMAGES_TRAIN_CSV = Some [CSV_TITLE +:+ nl]
        ∧ symlinks w0 = symlinks w
        ∧ SYMLINK_DIR ∈ dirs w0
        ∧ training_set_csv fs input_dir w =
          for_list (add_file input_dir) (labeled_files fs input_dir subdirs) w0.
Proof.
  intros Hsub. destruct (get_subdirs_Ok _ _ _ Hsub) as (_ & Hdirs & _).
  unfold training_set_csv. rewrite Hsub. unfold os_mkdir.
  case_decide as Hdir; rewrite training_subdirs_flat by done;
    (eexists; split; [|split; [|split; [|reflexivity]]]);
    unfold write, open_w; simpl;
    try (by rewrite !lookup_insert_eq); try done.
  apply elem_of_union_l, elem_of_singleton. reflexivity.
Qed.

Lemma length_labeled_files (fs : gmap string entry) (input_dir : string)
    (subdirs : list string) :
  length (labeled_files fs input_dir subdirs) =
  sum_list ((fun subdir => length (images_of fs input_dir subdir)) <$> subdirs).
Proof.
  induction subdirs as [|subdir subdirs IH]; [done|].
  rewrite labeled_files_cons, length_app, length_fmap, IH. done.
Qed.

Lemma elem_of_labeled_files (fs : gmap string entry) (input_dir : string)
    (subdirs : list string) (img subdir : string) :
  (img, subdir) ∈ labeled_files fs input_dir subdirs ↔
  subdir ∈ subdirs ∧ img ∈ images_of fs input_dir subdir.
Proof.
  unfold labeled_files. rewrite list_elem_of_bind. split.
  - intros (s & Hin & Hs). apply list_elem_of_fmap in Hin as (i & [= -> ->] & Hi).
    done.
  - intros [Hs Hi]. exists subdir. split; [|done].
    by apply (list_elem_of_fmap_2 (fun img => (img, subdir))).
Qed.

Lemma images_of_isfile (fs : gmap string entry) (input_dir subdir img : string) :
  img ∈ images_of fs input_dir subdir →
  os_path_isfile fs (original_path input_dir (img, subdir)) = true.
Proof.
  unfold images_of, original_path. simpl.
  destruct (os_listdir fs _); [|by intros ?%elem_of_nil].
  by intros [? _]%list_elem_of_filter.
Qed.

(** C6 (refuted as stated): with [a.jpg] under both [CAR] and [SHIP] the
    run ends with [FileExistsError], but the link [images/a.jpg] to the
    file under [CAR] has been made. *)
Lemma C6_collision_refuted :
  "a.jpg" ∈ images_of collision_tree "/data" "CAR"
  ∧ "a.jpg" ∈ images_of collision_tree "/data" "SHIP"
  ∧ (training_set_csv collision_tree "/data" empty_cwd).2 =
    Some (FileExistsError "images/a.jpg")
  ∧ symlinks (training_set_csv collision_tree "/data" empty_cwd).1
      !! "images/a.jpg" = Some "/data/CAR/a.jpg".
Proof.
  split; [|split]; [| |split; vm_compute; reflexivity];
    apply (bool_decide_unpack _); vm_compute; exact I.
Qed.

(** C6 (amended): when two different label folders hold a file of the
    same name, the run ends with [FileExistsError] (the collision error)
    at the first file in traversal order whose name repeats that of an
    earlier file.  By then the rows of all files up to and including that
    file are written and the links of exactly the files before it are
    made, each to its original path; no link is replaced and none is made
    for the file at which the run ends, while the link of the earlier file
    of that name is in place. *)
Theorem C6_collision_amended (fs : gmap string entry) (input_dir : string)
    (subdirs : list string) (s1 s2 img : string) (w : cwd) :
  get_subdirs fs input_dir = Ok subdirs →
  symlinks w = ∅ →
  s1 ∈ subdirs → s2 ∈ subdirs → s1 ≠ s2 →
  img ∈ images_of fs input_dir s1 →
  img ∈ images_of fs input_dir s2 →
  ∃ (done : list (string * string)) (file : string * string)
    (rest : list (string * string)) (earlier : string * string) (w' : cwd),
    labeled_files fs input_dir subdirs = done ++ file :: rest
    ∧ NoDup done.*1
    ∧ earlier ∈ done ∧ earlier.1 = file.1
    ∧ training_set_csv fs input_dir w =
      (w', Some (FileExistsError (os_path_join SYMLINK_DIR file.1)))
    ∧ files w' !! IMAGES_TRAIN_CSV =
      Some ((CSV_TITLE +:+ nl) :: (manifest_row <$> done ++ [file]))
    ∧ symlinks w' = list_to_map (link_of input_dir <$> done)
    ∧ symlinks w' !! os_path_join SYMLINK_DIR file.1 =
      Some (original_path input_dir earlier).
Proof.
  intros Hsub Hempty Hs1 Hs2 Hne Hi1 Hi2.
  assert (¬ NoDup (labeled_files fs input_dir subdirs).*1) as Hdup.
  { intros Hnd.
    assert ((img, s1) ∈ labeled_files fs input_dir subdirs) as H1
      by by apply elem_of_labeled_files.
    assert ((img, s2) ∈ labeled_files fs input_dir subdirs) as H2
      by by apply elem_of_labeled_files.
    apply Hne.
    assert (list_to_map (M:=gmap string string)
              (labeled_files fs input_dir subdirs) !! img = Some s1) as E1
      by by apply elem_of_list_to_map_1.
    assert (list_to_map (M:=gmap string string)
              (labeled_files fs input_dir subdirs) !! img = Some s2) as E2
      by by apply elem_of_list_to_map_1.
    congruence. }
  destruct (first_duplicate _ Hdup) as (done & file & rest & Hsplit & Hnd & Hin).
  destruct (training_set_csv_flat _ _ _ w Hsub) as (w0 & Hrows & Hlinks & _ & Hrun).
  apply list_elem_of_fmap in Hin as Hin'. destruct Hin' as [earlier [Heq Hearlier]].
  assert (symlinks (added input_dir done [CSV_TITLE +:+ nl] w0) =
          list_to_map (link_of input_dir <$> done)) as Hadded.
  { unfold added. simpl. by rewrite Hlinks, Hempty, (right_id_L ∅ (∪)). }
  exists done, file, rest, earlier,
    (write IMAGES_TRAIN_CSV (manifest_row file)
       (added input_dir done [CSV_TITLE +:+ nl] w0)).
  split; [done|]. split; [done|]. split; [done|]. split; [done|]. split.
  { rewrite Hrun, Hsplit. apply add_files_collision; try done.
    intros f _. by rewrite Hlinks, Hempty. }
  split.
  { unfold write, added. simpl. rewrite !lookup_insert_eq. simpl.
    by rewrite fmap_app. }
  split; [done|].
  unfold write. cbn [symlinks]. rewrite Hadded.
  apply elem_of_list_to_map_1; [by apply NoDup_link_keys|].
  apply list_elem_of_fmap. exists earlier. split; [|done].
  unfold link_of. by rewrite Heq.
Qed.

Lemma C6_collision_amended_witness :
  ∃ (done : list (string * string)) (file : string * string)
    (rest : list (string * string)) (earlier : string * string) (w' : cwd),
    labeled_files collision_tree "/data" ["CAR"; "SHIP"] = done ++ file :: rest
    ∧ NoDup done.*1
    ∧ earlier ∈ done ∧ earlier.1 = file.1
    ∧ training_set_csv collision_tree "/data" empty_cwd =
      (w', Some (FileExistsError (os_path_join SYMLINK_DIR file.1)))
    ∧ files w' !! IMAGES_TRAIN_CSV =
      Some ((CSV_TITLE +:+ nl) :: (manifest_row <$> done ++ [file]))
    ∧ symlinks w' = list_to_map (link_of "/data" <$> done)
    ∧ symlinks w' !! os_path_join SYMLINK_DIR file.1 =
      Some (original_path "/data" earlier).
Proof.
  apply (C6_collision_amended collision_tree "/data" ["CAR"; "SHIP"]
           "CAR" "SHIP" "a.jpg" empty_cwd).
  - vm_compute. reflexivity.
  - reflexivity.
  - apply (bool_decide_unpack _). vm_compute. exact I.
  - apply (bool_decide_unpack _). vm_compute. exact I.
  - intros H. discriminate H.
  - apply (bool_decide_unpack _). vm_compute. exact I.
  - apply (bool_decide_unpack _). vm_compute. exact I.
Defined.

(** C7: for a labeled tree whose label folders are [subdirs] (the folders
    of the listing of the input directory, in listing order, at least one)
    and whose regular files have pairwise different names, the run raises
    nothing; the manifest is the header row followed by one row per
    regular file, grouped by label in the order of [subdirs] and within a
    label in listing order; the number of rows and the number of links are
    both the sum of the numbers of files per label; and the link of each
    file points to its original path, which is a regular file. *)
Theorem C7_labeled_manifest (fs : gmap string entry) (input_dir : string)
    (subdirs : list string) (w : cwd) :
  get_subdirs fs input_dir = Ok subdirs →
  NoDup (labeled_files fs input_dir subdirs).*1 →
  symlinks w = ∅ →
  ∃ (w' : cwd) (listing : list string),
    os_listdir fs input_dir = Ok listing
    ∧ subdirs =
      filter (fun subdir =>
                os_path_isdir fs (os_path_join input_dir subdir) = true) listing
    ∧ training_set_csv fs input_dir w = (w', None)
    ∧ files w' !! IMAGES_TRAIN_CSV =
      Some (("imgfile,class" +:+ nl)
            :: (subdirs ≫= fun subdir =>
                  (fun img => img +:+ "," +:+ subdir +:+ nl) <$>
                    images_of fs input_dir subdir))
    ∧ length (subdirs ≫= fun subdir =>
                (fun img => img +:+ "," +:+ subdir +:+ nl) <$>
                  images_of fs input_dir subdir) =
      sum_list ((fun subdir => length (images_of fs input_dir subdir)) <$> subdirs)
    ∧ size (symlinks w') =
      sum_list ((fun subdir => length (images_of fs input_dir subdir)) <$> subdirs)
    ∧ ∀ img subdir,
        subdir ∈ subdirs →
        img ∈ images_of fs input_dir subdir →
        symlinks w' !! os_path_join SYMLINK_DIR img =
          Some (os_path_join (os_path_join input_dir subdir) img)
        ∧ os_path_isfile fs (os_path_join (os_path_join input_dir subdir) img)
          = true.
Proof.
  intros Hsub Hnd Hempty.
  destruct (get_subdirs_Ok _ _ _ Hsub) as (_ & _ & listing & Hlist & Hfilter).
  destruct (training_set_csv_flat _ _ _ w Hsub) as (w0 & Hrows & Hlinks & _ & Hrun).
  assert (subdirs ≫= (fun subdir =>
            (fun img => img +:+ "," +:+ subdir +:+ nl) <$>
              images_of fs input_dir subdir) =
          manifest_row <$> labeled_files fs input_dir subdirs) as Hmanifest.
  { clear. induction subdirs as [|subdir subdirs IH]; [done|].
    rewrite labeled_files_cons, fmap_app, <- IH, <- list_fmap_compose. done. }
  exists (added input_dir (labeled_files fs input_dir subdirs)
            [CSV_TITLE +:+ nl] w0), listing.
  assert (symlinks (added input_dir (labeled_files fs input_dir subdirs)
                      [CSV_TITLE +:+ nl] w0) =
          list_to_map (link_of input_dir <$> labeled_files fs input_dir subdirs))
    as Hadded.
  { unfold added. cbn [symlinks]. by rewrite Hlinks, Hempty, (right_id_L ∅ (∪)). }
  split; [done|]. split; [done|]. split.
  { rewrite Hrun. apply add_files_fresh; try done.
    intros f _. by rewrite Hlinks, Hempty. }
  split.
  { unfold added. cbn [files]. rewrite lookup_insert_eq, Hmanifest. done. }
  split.
  { by rewrite Hmanifest, length_fmap, length_labeled_files. }
  split.
  { rewrite Hadded, map_size_list_to_map by by apply NoDup_link_keys.
    by rewrite length_fmap, length_labeled_files. }
  intros img subdir Hs Hi. split; [|by apply (images_of_isfile _ _ _ _ Hi)].
  rewrite Hadded. apply elem_of_list_to_map_1; [by apply NoDup_link_keys|].
  apply list_elem_of_fmap. exists (img, subdir). split; [done|].
  by apply elem_of_labeled_files.
Qed.

Lemma C7_labeled_manifest_witness :
  ∃ (w' : cwd) (listing : list string),
    os_listdir example_tree "/data" = Ok listing
    ∧ ["SHIP"; "CAR"] =
      filter (fun subdir =>
                os_path_isdir example_tree (os_path_join "/data" subdir) = true)
             listing
    ∧ training_set_csv example_tree "/data" empty_cwd = (w', None)
    ∧ files w' !! IMAGES_TRAIN_CSV =
      Some (("imgfile,class" +:+ nl)
            :: (["SHIP"; "CAR"] ≫= fun subdir =>
                  (fun img => img +:+ "," +:+ subdir +:+ nl) <$>
                    images_of example_tree "/data" subdir))
    ∧ length (["SHIP"; "CAR"] ≫= fun subdir =>
                (fun img => img +:+ "," +:+ subdir +:+ nl) <$>
                  images_of example_tree "/data" subdir) =
      sum_list ((fun subdir => length (images_of example_tree "/data" subdir))
                  <$> ["SHIP"; "CAR"])
    ∧ size (symlinks w') =
      sum_list ((fun subdir => length (images_of example_tree "/data" subdir))
                  <$> ["SHIP"; "CAR"])
    ∧ ∀ img subdir,
        subdir ∈ ["SHIP"; "CAR"] →
        img ∈ images_of example_tree "/data" subdir →
        symlinks w' !! os_path_join SYMLINK_DIR img =
          Some (os_path_join (os_path_join "/data" subdir) img)
        ∧ os_path_isfile example_tree
            (os_path_join (os_path_join "/data" subdir) img) = true.
Proof.
  apply (C7_labeled_manifest example_tree "/data" ["SHIP"; "CAR"] empty_cwd).
  - vm_compute. reflexivity.
  - apply (bool_decide_unpack _). vm_compute. exact I.
  - reflexivity.
Defined.

Lemma StronglySorted_filter {A} (R : relation A) (P : A → Prop)
    `{∀ x, Decision (P x)} (l : list A) :
  StronglySorted R l → StronglySorted R (filter P l).
Proof.
  induction 1 as [|x l _ IH Hall]; [constructor|].
  rewrite filter_cons. case_decide; [|done]. constructor; [done|].
  apply Forall_forall. intros y [_ Hy]%list_elem_of_filter.
  by eapply Forall_forall in Hall.
Qed.

(** The loop of [test_set_csv] appends a row per regular file, in the
    order of the names it is given, and touches nothing else. *)
Lemma test_imgs_rows (fs : gmap string entry) (input_dir : string)
    (names rows : list string) (w : cwd) :
  files w !! IMAGES_TEST_CSV = Some rows →
  for_list (test_img fs input_dir) names w =
  (Cwd (dirs w)
       (<[IMAGES_TEST_CSV:=rows ++
            (test_row <$>
               filter (fun img =>
                         os_path_isfile fs (os_path_join input_dir img) = true)
                      names)]> (files w))
       (symlinks w), None).
Proof.
  revert rows w. induction names as [|img names IH]; intros rows w Hrows.
  - unfold for_list. simpl. destruct w as [d f l]. simpl in *.
    by rewrite app_nil_r, insert_id.
  - rewrite for_list_cons, filter_cons. unfold test_img at 1.
    destruct (os_path_isfile fs (os_path_join input_dir img)) eqn:Hfile.
    + rewrite decide_True by done.
      rewrite (IH (rows ++ [test_row img])).
      * unfold write. simpl. rewrite Hrows. simpl.
        by rewrite insert_insert_eq, <- app_assoc.
      * unfold write. simpl. rewrite Hrows. apply lookup_insert_eq.
    + rewrite decide_False by (by intros ?). by apply IH.
Qed.

(** C8: for an input directory with listing [listing], [test_set_csv]
    raises nothing; the manifest is the header row followed by one row per
    regular file directly inside the directory, the names ascending in the
    lexicographic order of strings, every row with the label field "0";
    the directories and the links of the output location are as before:
    no link collection is made. *)
Theorem C8_unlabeled_manifest (fs : gmap string entry) (input_dir : string)
    (listing : list string) (w : cwd) :
  os_listdir fs input_dir = Ok listing →
  ∃ (w' : cwd) (imgs : list string),
    test_set_csv fs input_dir w = (w', None)
    ∧ files w' !! IMAGES_TEST_CSV =
      Some (("imgfile,class" +:+ nl)
            :: ((fun img => img +:+ "," +:+ "0" +:+ nl) <$> imgs))
    ∧ imgs ≡ₚ filter (fun img =>
                        os_path_isfile fs (os_path_join input_dir img) = true)
                     listing
    ∧ StronglySorted String.le imgs
    ∧ dirs w' = dirs w
    ∧ symlinks w' = symlinks w.
Proof.
  intros Hlist. unfold test_set_csv. rewrite Hlist.
  rewrite (test_imgs_rows _ _ _ [CSV_TITLE +:+ nl]).
  2:{ unfold write, open_w. simpl. by rewrite !lookup_insert_eq. }
  eexists _, (filter _ (sorted listing)). split; [reflexivity|]. split.
  { cbn [files]. by rewrite lookup_insert_eq. }
  split.
  { unfold sorted. by rewrite merge_sort_Permutation. }
  split; [|done].
  apply StronglySorted_filter, StronglySorted_merge_sort; apply _.
Qed.

Lemma C8_unlabeled_manifest_witness :
  ∃ (w' : cwd) (imgs : list string),
    test_set_csv example_tree "/data/CAR" empty_cwd = (w', None)
    ∧ files w' !! IMAGES_TEST_CSV =
      Some (("imgfile,class" +:+ nl)
            :: ((fun img => img +:+ "," +:+ "0" +:+ nl) <$> imgs))
    ∧ imgs ≡ₚ filter (fun img =>
                        os_path_isfile example_tree
                          (os_path_join "/data/CAR" img) = true)
                     ["z.jpg"; "old"; "a.jpg"]
    ∧ StronglySorted String.le imgs
    ∧ dirs w' = dirs empty_cwd
    ∧ symlinks w' = symlinks empty_cwd.
Proof.
  apply (C8_unlabeled_manifest example_tree "/data/CAR"
           ["z.jpg"; "old"; "a.jpg"] empty_cwd).
  vm_compute. reflexivity.
Defined.

End imgtocsv_properties.

(** ** Further properties of the prediction remapper *)

Section wekatokaggle_further.
Import Py wekatokaggle.

(** The label-to-column dict is the inverse of the column tuple: it sends
    a string to [k] exactly when the string is column [k]. *)
Theorem CSV_COLS_MAP_inverse (label : string) (k : nat) :
  CSV_COLS_MAP !! label = Some k ↔ CSV_COLS !! k = Some label.
Proof. apply CSV_COLS_MAP_lookup. Qed.

(** [to_kaggle_record] returns a record exactly for the column names, the
    record always has one cell per column, and every other prediction
    raises [KeyError] with that prediction. *)
Theorem to_kaggle_record_total (csv_cols : list string)
    (image_name prediction : string) :
  (prediction ∈ CSV_COLS →
   ∃ record, to_kaggle_record csv_cols image_name prediction = Ok record
             ∧ length record = length CSV_COLS)
  ∧ (prediction ∉ CSV_COLS →
     to_kaggle_record csv_cols image_name prediction =
     Raise (KeyError prediction)).
Proof.
  split; [|apply to_kaggle_record_unknown].
  intros [k Hk]%list_elem_of_lookup.
  rewrite (to_kaggle_record_column _ _ _ _ Hk). eexists. split; [done|].
  by rewrite length_insert.
Qed.

Lemma prediction_label_short (line : string) :
  split "," line !! 2 = None → prediction_label line = Raise IndexError.
Proof. intros H. unfold prediction_label, getitem. by rewrite H. Qed.

Lemma prediction_label_only_IndexError (line : string) (e : exn) :
  prediction_label line = Raise e → e = IndexError.
Proof.
  destruct (split "," line !! 2) as [val3|] eqn:Hfield.
  - rewrite (prediction_label_field _ _ Hfield).
    destruct (after_first ":" val3) as [rest|] eqn:Hcolon.
    + by rewrite (split_colon_1 _ _ Hcolon).
    + rewrite (split_colon_1_absent _ Hcolon). by intros [= <-].
  - rewrite (prediction_label_short _ Hfield). by intros [= <-].
Qed.

(** Decoding a prediction line fails with [IndexError], and with nothing
    else: when the line has fewer than three comma-delimited fields, and
    when its third field holds no colon. *)
Theorem prediction_label_errors (line : string) :
  (length (split "," line) < 3 → prediction_label line = Raise IndexError)
  ∧ (∀ val3, split "," line !! 2 = Some val3 →
             after_first ":" val3 = None →
             prediction_label line = Raise IndexError)
  ∧ (∀ e, prediction_label line = Raise e → e = IndexError).
Proof.
  split; [|split].
  - intros Hlen. apply prediction_label_short. apply lookup_ge_None. lia.
  - intros val3 Hfield Hnone. rewrite (prediction_label_field _ _ Hfield).
    by apply split_colon_1_absent.
  - intros e. apply prediction_label_only_IndexError.
Qed.

(** A paired prediction line that cannot be decoded ends the run with the
    decoding error, after the rows of the pairs before it were written;
    the lines after it are not looked at. *)
Theorem weka_malformed_line (names preds : list string) (ks : list nat)
    (title name line : string) (e : exn) (names' preds' : list string) :
  Forall2 (fun line k => ∃ label,
             prediction_label line = Ok label ∧ CSV_COLS !! k = Some label)
          preds ks →
  length names = length preds →
  prediction_label line = Raise e →
  weka_csv_to_kaggle (names ++ name :: names') (title :: preds ++ line :: preds') =
  ((CSV_TITLE +:+ nl) :: zip_with kaggle_row names ks, Some e).
Proof.
  intros Hall Hlen Hline. unfold weka_csv_to_kaggle. simpl tail.
  rewrite (weka_loop_prefix _ _ _ Hall Hlen). simpl. by rewrite Hline.
Qed.

Lemma weka_malformed_line_witness :
  weka_csv_to_kaggle
    (["a.jpg" +:+ nl] ++ ("b.jpg" +:+ nl) :: ["c.jpg" +:+ nl])
    (("inst#,actual,predicted,error,prediction" +:+ nl)
       :: ["1,1:?,8:YFT,,1" +:+ nl] ++ "2,1:?" :: ["3,1:?,1:ALB,,1" +:+ nl]) =
  ((CSV_TITLE +:+ nl) :: zip_with kaggle_row ["a.jpg" +:+ nl] [8],
   Some IndexError).
Proof.
  apply (weka_malformed_line ["a.jpg" +:+ nl] ["1,1:?,8:YFT,,1" +:+ nl] [8]).
  - constructor; [|constructor]. exists "YFT". split; reflexivity.
  - reflexivity.
  - reflexivity.
Defined.

Lemma to_kaggle_record_cases (csv_cols : list string) (image_name prediction : string) :
  (∃ record, to_kaggle_record csv_cols image_name prediction = Ok record)
  ∨ to_kaggle_record csv_cols image_name prediction = Raise (KeyError prediction).
Proof.
  destruct (decide (prediction ∈ CSV_COLS)) as [Hin|Hnin].
  - left. apply list_elem_of_lookup in Hin as [k Hk].
    rewrite (to_kaggle_record_column _ _ _ _ Hk). by eexists.
  - right. by apply to_kaggle_record_unknown.
Qed.

(** The shape of what the pairing loop leaves, whatever the input. *)
Lemma weka_loop_shape (names preds out : list string) :
  ∃ rows,
    (for_each write_record
       (zip2 (image_names_iter names) (predictions_csv_iter preds)) out).1 =
      out ++ rows
    ∧ match (for_each write_record
               (zip2 (image_names_iter names) (predictions_csv_iter preds)) out).2
      with
      | None => length rows = length names `min` length preds
      | Some e => length rows < length names `min` length preds
                  ∧ (e = IndexError ∨ ∃ key, e = KeyError key)
      end.
Proof.
  revert preds out. induction names as [|name names IH]; intros preds out.
  - exists []. simpl. by rewrite app_nil_r.
  - destruct preds as [|line preds].
    { exists []. simpl. by rewrite app_nil_r. }
    simpl. destruct (prediction_label line) as [label|e] eqn:Hline.
    + simpl. destruct (to_kaggle_record_cases CSV_COLS (strip name) label)
        as [[record ->]| ->].
      * destruct (IH preds (out ++ [record_line record])) as (rows & Hout & Hexn).
        exists (record_line record :: rows). split.
        { by rewrite Hout, <- app_assoc. }
        destruct (for_each _ _ _).2; simpl; [|lia].
        destruct Hexn as [Hlt Hkind]. split; [lia|done].
      * exists []. simpl. rewrite app_nil_r. split; [done|]. split; [lia|].
        right. by eexists.
    + exists []. simpl. rewrite app_nil_r. split; [done|]. split; [lia|].
      left. by apply (prediction_label_only_IndexError line).
Qed.

(** Whatever the two input files hold, the output starts with the header
    line; a run that raises nothing has written exactly min(M, K) rows for
    M names and K prediction lines after the first; a run that raises has
    written fewer, and what it raises is [IndexError] or [KeyError]. *)
Theorem weka_output_shape (image_names_file predictions_file : list string) :
  ∃ rows,
    (weka_csv_to_kaggle image_names_file predictions_file).1 =
      (CSV_TITLE +:+ nl) :: rows
    ∧ match (weka_csv_to_kaggle image_names_file predictions_file).2 with
      | None =>
          length rows =
          length image_names_file `min` length (tail predictions_file)
      | Some e =>
          length rows <
          length image_names_file `min` length (tail predictions_file)
          ∧ (e = IndexError ∨ ∃ key, e = KeyError key)
      end.
Proof.
  unfold weka_csv_to_kaggle.
  destruct (weka_loop_shape image_names_file (tail predictions_file)
              [CSV_TITLE +:+ nl]) as (rows & Hout & Hexn).
  exists rows. by rewrite Hout.
Qed.

Lemma lstrip_clean (s : string) :
  match lstrip s with
  | EmptyString => True
  | String c _ => isspace c = false
  end.
Proof.
  induction s as [|c s IH]; simpl; [done|].
  by destruct (isspace c) eqn:Hc.
Qed.

Lemma rstrip_idemp (s : string) : rstrip (rstrip s) = rstrip s.
Proof.
  induction s as [|c s IH]; simpl; [done|].
  destruct (rstrip s) as [|d r] eqn:Hr.
  - destruct (isspace c) eqn:Hc; simpl; [done|]. by rewrite Hc.
  - simpl in *. by rewrite IH.
Qed.

Lemma rstrip_head (c : ascii) (s : string) :
  isspace c = false → ∃ r, rstrip (String c s) = String c r.
Proof.
  intros Hc. simpl. destruct (rstrip s); [|by eexists].
  rewrite Hc. by eexists.
Qed.

Lemma strip_idemp (s : string) : strip (strip s) = strip s.
Proof.
  unfold strip. pose proof (lstrip_clean s) as Hclean.
  destruct (lstrip s) as [|c t]; [done|].
  destruct (rstrip_head c t Hclean) as [r Hr]. rewrite Hr.
  cbn [lstrip]. rewrite Hclean, <- Hr. apply rstrip_idemp.
Qed.

Lemma rstrip_app_nl (s : string) : rstrip (s +:+ nl) = rstrip s.
Proof. induction s as [|c s IH]; simpl; [done|]. by rewrite IH. Qed.

Lemma strip_app_nl (s : string) : strip (s +:+ nl) = strip s.
Proof.
  unfold strip. induction s as [|c s IH]; [done|].
  change (String c s +:+ nl) with (String c (s +:+ nl)). cbn [lstrip].
  destruct (isspace c); [done|]. apply (rstrip_app_nl (String c s)).
Qed.

(** The names that [image_names_iter] yields are stripped for good:
    stripping them again changes nothing, and a name does not depend on
    whether its line ended with a newline. *)
Theorem image_names_iter_stripped (image_names_file : list string) :
  image_names_iter (image_names_iter image_names_file) =
    image_names_iter image_names_file
  ∧ image_names_iter ((fun line => line +:+ nl) <$> image_names_file) =
    image_names_iter image_names_file.
Proof.
  unfold image_names_iter. rewrite <- !list_fmap_compose. split.
  - apply list_fmap_ext. intros _ line _. apply strip_idemp.
  - apply list_fmap_ext. intros _ line _. apply strip_app_nl.
Qed.

Lemma split_absent (c : ascii) (s : string) :
  after_first c s = None → split c s = [s].
Proof. intros H. by rewrite split_first, H, until_first_absent. Qed.

Lemma split_app_sep (c : ascii) (a rest : string) :
  after_first c a = None →
  split c (a +:+ String c rest) = a :: split c rest.
Proof.
  induction a as [|x a IH]; simpl.
  - intros _. by rewrite Ascii.eqb_refl.
  - destruct (Ascii.eqb x c); [done|]. intros H. by rewrite IH.
Qed.

(** Splitting at the separator undoes joining with it, for a list that is
    not empty and whose fields do not hold the separator. *)
Lemma split_join (c : ascii) (fields : list string) :
  fields ≠ [] →
  Forall (fun field => after_first c field = None) fields →
  split c (join (String c EmptyString) fields) = fields.
Proof.
  intros Hne Hall. induction Hall as [|a fields Ha Hall IH]; [done|].
  destruct fields as [|b fields].
  - simpl. by apply split_absent.
  - change (join (String c EmptyString) (a :: b :: fields))
      with (a +:+ String c (join (String c EmptyString) (b :: fields))).
    rewrite split_app_sep by done. by rewrite IH.
Qed.

(** When the image name holds no comma, the comma-joined text of the
    record that [to_kaggle_record] returns splits back, at the commas,
    into the cells of the record: one field per column. *)
Theorem kaggle_row_fields (csv_cols : list string)
    (image_name prediction : string) (record : list pyval) :
  to_kaggle_record csv_cols image_name prediction = Ok record →
  after_first "," image_name = None →
  split "," (join "," (str <$> record)) = str <$> record
  ∧ length (split "," (join "," (str <$> record))) = length CSV_COLS.
Proof.
  intros Hrec Hname.
  destruct (decide (prediction ∈ CSV_COLS)) as [Hin|Hnin].
  2:{ by rewrite (to_kaggle_record_unknown _ _ _ Hnin) in Hrec. }
  apply list_elem_of_lookup in Hin as [k Hk].
  rewrite (to_kaggle_record_column _ _ _ _ Hk) in Hrec. injection Hrec as <-.
  assert (split "," (join "," (str <$> <[k:=PInt 1]>
            (PStr image_name :: replicate (length LabelSet) (PInt 0)))) =
          str <$> <[k:=PInt 1]>
            (PStr image_name :: replicate (length LabelSet) (PInt 0))) as Heq.
  { apply (split_join ",").
    - intros Hnil. apply (f_equal length) in Hnil.
      by rewrite length_fmap, length_insert in Hnil.
    - apply Forall_fmap, Forall_insert; [|done].
      constructor; [done|]. by apply Forall_replicate. }
  split; [exact Heq|]. etransitivity; [exact (f_equal length Heq)|].
  by rewrite length_fmap, length_insert.
Qed.

Lemma kaggle_row_fields_witness :
  split "," (join "," (str <$>
     [PStr "a.jpg"; PInt 0; PInt 0; PInt 1; PInt 0; PInt 0; PInt 0; PInt 0;
      PInt 0])) =
  str <$> [PStr "a.jpg"; PInt 0; PInt 0; PInt 1; PInt 0; PInt 0; PInt 0; PInt 0;
           PInt 0]
  ∧ length (split "," (join "," (str <$>
     [PStr "a.jpg"; PInt 0; PInt 0; PInt 1; PInt 0; PInt 0; PInt 0; PInt 0;
      PInt 0]))) = length CSV_COLS.
Proof.
  apply (kaggle_row_fields CSV_COLS "a.jpg" "DOL"); reflexivity.
Defined.

Lemma getitem_Some {A} (l : list A) (i : nat) (x : A) :
  l !! i = Some x → getitem l i = Ok x.
Proof. intros H. unfold getitem. by rewrite H. Qed.

Lemma Mode_of_value (mode : Mode) : Mode_of (Mode_value mode) = Ok mode.
Proof. by destruct mode. Qed.

(** The file check of [parse_args] looks at the predictions path only,
    for both paths: with a predictions file in place the arguments are
    accepted whether or not the image names file exists, and without it
    the error names both paths. *)
Theorem weka_parse_args_file_check (fs : gmap string (list string))
    (argv : list string) (mode : Mode) (predictions image_names : string) :
  length argv = 4 ∨ length argv = 5 →
  argv !! 1 = Some (Mode_value mode) →
  argv !! 2 = Some predictions →
  argv !! 3 = Some image_names →
  (is_Some (fs !! predictions) →
   wekatokaggle.parse_args fs argv =
   Ok (mode, predictions, image_names, default OUTPUT (argv !! 4)))
  ∧ (fs !! predictions = None →
     wekatokaggle.parse_args fs argv =
     Raise (ValueError (predictions +:+ ", " +:+ image_names))).
Proof.
  intros Hlen Hmode Hpred Hnames. unfold wekatokaggle.parse_args.
  rewrite decide_False.
  2:{ intros Hnot. apply Hnot. rewrite !elem_of_cons. lia. }
  rewrite (getitem_Some _ _ _ Hmode). simpl.
  rewrite Mode_of_value. simpl.
  rewrite (getitem_Some _ _ _ Hpred). simpl.
  rewrite (getitem_Some _ _ _ Hnames). simpl.
  unfold os_path_isfile. split.
  - intros Hfile. rewrite (bool_decide_eq_true_2 _ Hfile).
    rewrite !filter_cons_False, filter_nil by done.
    rewrite decide_False by (by intros H).
    case_decide as H5.
    + assert (is_Some (argv !! 4)) as [output Hout]
        by (apply lookup_lt_is_Some; lia).
      unfold getitem. by rewrite Hout.
    + by rewrite (lookup_ge_None_2 argv 4) by lia.
  - intros Hnone. rewrite bool_decide_eq_false_2 by (rewrite Hnone; by intros [? ?]).
    rewrite !filter_cons_True, filter_nil by done.
    by rewrite decide_True.
Qed.

Lemma weka_parse_args_file_check_witness :
  (is_Some (({[ "preds.csv" := ["h"] ]} : gmap string (list string))
              !! "preds.csv") →
   wekatokaggle.parse_args {[ "preds.csv" := ["h"] ]}
     ["wekatokaggle.py"; "csv"; "preds.csv"; "missing.txt"] =
   Ok (CSV, "preds.csv", "missing.txt",
       default OUTPUT
         (["wekatokaggle.py"; "csv"; "preds.csv"; "missing.txt"] !! 4)))
  ∧ (({[ "preds.csv" := ["h"] ]} : gmap string (list string))
       !! "preds.csv" = None →
     wekatokaggle.parse_args {[ "preds.csv" := ["h"] ]}
       ["wekatokaggle.py"; "csv"; "preds.csv"; "missing.txt"] =
     Raise (ValueError ("preds.csv" +:+ ", " +:+ "missing.txt"))).
Proof.
  apply (weka_parse_args_file_check {[ "preds.csv" := ["h"] ]}
           ["wekatokaggle.py"; "csv"; "preds.csv"; "missing.txt"] CSV
           "preds.csv" "missing.txt").
  - left. reflexivity.
  - reflexivity.
  - reflexivity.
  - reflexivity.
Defined.

(** The errors of [parse_args] come in the order of the checks: the
    number of words first, then the mode, and only then the files, so an
    unknown mode is reported even when no file exists. *)
Theorem weka_parse_args_errors (fs : gmap string (list string))
    (argv : list string) :
  (length argv ≠ 4 → length argv ≠ 5 →
   wekatokaggle.parse_args fs argv =
   Raise (ValueError "Wrong number of arguments"))
  ∧ (∀ mode, length argv = 4 ∨ length argv = 5 →
             argv !! 1 = Some mode →
             mode ≠ "csv" → mode ≠ "xml" →
             wekatokaggle.parse_args fs argv =
             Raise (ValueError ("Invalid mode: " +:+ dq +:+ mode +:+ dq))).
Proof.
  unfold wekatokaggle.parse_args. split.
  - intros H4 H5. rewrite decide_True; [done|].
    rewrite !not_elem_of_cons. split; [done|]. split; [done|].
    apply not_elem_of_nil.
  - intros mode Hlen Hmode Hcsv Hxml.
    rewrite decide_False.
    2:{ intros Hnot. apply Hnot. rewrite !elem_of_cons. lia. }
    rewrite (getitem_Some _ _ _ Hmode). simpl. unfold Mode_of.
    destruct (decide (mode = "csv")) as [|_]; [done|].
    destruct (decide (mode = "xml")) as [|_]; [done|]. reflexivity.
Qed.

End wekatokaggle_further.

(** ** Further properties of the manifest builder *)

Section imgtocsv_further.
Import Py imgtocsv.

Lemma argvlen_ok (n : nat) : n ∉ [3; 4] ↔ n ≠ 3 ∧ n ≠ 4.
Proof.
  rewrite !not_elem_of_cons. split.
  - by intros (? & ? & _).
  - intros [? ?]. split; [done|]. split; [done|]. apply not_elem_of_nil.
Qed.

Lemma imgtocsv_Mode_of_value (mode : Mode) : Mode_of (Mode_value mode) = Ok mode.
Proof. by destruct mode. Qed.

Lemma imgtocsv_Mode_of_Ok (value : string) (mode : Mode) :
  Mode_of value = Ok mode → value = Mode_value mode.
Proof.
  unfold Mode_of. repeat case_decide; intros [= <-]; by subst.
Qed.

Lemma getitem_lookup {A} (l : list A) (i : nat) (x : A) :
  getitem l i = Ok x ↔ l !! i = Some x.
Proof. unfold getitem. destruct (l !! i); split; by intros [= ->]. Qed.

(** [parse_args] accepts exactly the command lines of three or four words
    whose second word is the value of a mode; it returns that mode, the
    third word as input directory, and the fourth word, or "output" when
    there is none, as output directory. *)
Theorem imgtocsv_parse_args_Ok (argv : list string) (mode : Mode)
    (input_dir output_dir : string) :
  imgtocsv.parse_args argv = Ok (mode, input_dir, output_dir) ↔
  (length argv = 3 ∨ length argv = 4)
  ∧ argv !! 1 = Some (Mode_value mode)
  ∧ argv !! 2 = Some input_dir
  ∧ output_dir = default OUTPUT_DIR (argv !! 3).
Proof.
  unfold imgtocsv.parse_args. split.
  - case_decide as Hlen; [done|].
    assert (length argv = 3 ∨ length argv = 4) as Hlen'.
    { revert Hlen. rewrite !elem_of_cons, elem_of_nil. tauto. }
    destruct (getitem argv 1) as [value|] eqn:Hvalue; [|done]. simpl.
    destruct (Mode_of value) as [m|e] eqn:Hm; [|by destruct e]. simpl.
    apply imgtocsv_Mode_of_Ok in Hm as ->. apply getitem_lookup in Hvalue.
    case_decide as H4.
    + destruct (getitem argv 3) as [out|] eqn:Hout; [|done]. simpl.
      destruct (getitem argv 2) as [inp|] eqn:Hinp; [|done]. simpl.
      intros [= <- <- <-]. apply getitem_lookup in Hout, Hinp.
      by rewrite Hout.
    + simpl. destruct (getitem argv 2) as [inp|] eqn:Hinp; [|done]. simpl.
      intros [= <- <- <-]. apply getitem_lookup in Hinp.
      by rewrite (lookup_ge_None_2 argv 3) by lia.
  - intros (Hlen & Hmode & Hinp & ->).
    rewrite decide_False by (rewrite argvlen_ok; lia).
    rewrite (getitem_Some _ _ _ Hmode). simpl.
    rewrite imgtocsv_Mode_of_value. simpl.
    case_decide as H4.
    + assert (is_Some (argv !! 3)) as [out Hout]
        by (apply lookup_lt_is_Some; lia).
      rewrite (getitem_Some _ _ _ Hout). simpl.
      rewrite (getitem_Some _ _ _ Hinp). simpl. by rewrite Hout.
    + simpl. rewrite (getitem_Some _ _ _ Hinp). simpl.
      by rewrite (lookup_ge_None_2 argv 3) by lia.
Qed.

(** The errors of [parse_args]: a command line that has not three or four
    words is rejected for its length, whatever the words are; one of the
    right length whose second word is no mode is rejected with that word
    quoted in the message. *)
Theorem imgtocsv_parse_args_errors (argv : list string) :
  (length argv ≠ 3 → length argv ≠ 4 →
   imgtocsv.parse_args argv = Raise (ValueError "Wrong number of arguments"))
  ∧ (∀ mode, length argv = 3 ∨ length argv = 4 →
             argv !! 1 = Some mode →
             mode ≠ "train" → mode ≠ "test" →
             imgtocsv.parse_args argv =
             Raise (ValueError ("Invalid mode: " +:+ dq +:+ mode +:+ dq))).
Proof.
  unfold imgtocsv.parse_args. split.
  - intros H3 H4. by rewrite decide_True by (by apply argvlen_ok).
  - intros mode Hlen Hmode Htrain Htest.
    rewrite decide_False by (rewrite argvlen_ok; lia).
    rewrite (getitem_Some _ _ _ Hmode). simpl. unfold Mode_of.
    destruct (decide (mode = "train")) as [|_]; [done|].
    destruct (decide (mode = "test")) as [|_]; [done|]. reflexivity.
Qed.

(** What [get_subdirs] returns is never empty: it is the listing of the
    directory cut down, in order, to the names that are directories.  What
    it raises is the error of the listing, or [ValueError] when no listed
    name is a directory. *)
Theorem get_subdirs_result (fs : gmap string entry) (directory : string) :
  match get_subdirs fs directory with
  | Ok subdirs =>
      subdirs ≠ []
      ∧ ∃ listing,
          os_listdir fs directory = Ok listing
          ∧ subdirs `sublist_of` listing
          ∧ ∀ name, name ∈ subdirs ↔
                    name ∈ listing
                    ∧ os_path_isdir fs (os_path_join directory name) = true
  | Raise e =>
      os_listdir fs directory = Raise e
      ∨ ∃ listing,
          os_listdir fs directory = Ok listing
          ∧ Forall (fun name =>
                      os_path_isdir fs (os_path_join directory name) = false)
                   listing
          ∧ e = ValueError ("There were no subdirectories found under:" +:+ nl
                            +:+ directory)
  end.
Proof.
  destruct (get_subdirs fs directory) as [subdirs|e] eqn:Hsub.
  - destruct (get_subdirs_Ok _ _ _ Hsub) as (Hne & _ & listing & Hlist & ->).
    split; [done|]. exists listing. split; [done|].
    split; [apply sublist_filter|].
    intros name. rewrite list_elem_of_filter. tauto.
  - unfold get_subdirs in Hsub.
    destruct (os_listdir fs directory) as [listing|e'] eqn:Hlist.
    + right. exists listing. split; [done|]. simpl in Hsub.
      case_decide as Hlen; [|done]. injection Hsub as <-. split; [|done].
      apply Forall_forall. intros name Hin.
      destruct (os_path_isdir fs (os_path_join directory name)) eqn:Hdir; [|done].
      apply length_zero_iff_nil in Hlen.
      assert (name ∈ filter (fun subdir =>
                os_path_isdir fs (os_path_join directory subdir) = true) listing)
        as Hmem by by apply list_elem_of_filter.
      rewrite Hlen in Hmem. by apply elem_of_nil in Hmem.
    + left. simpl in Hsub. by injection Hsub as <-.
Qed.

(** A directory without label folders: [training_set_csv] raises the
    [ValueError] of [get_subdirs] and leaves the output location as it
    was: no link folder, no manifest. *)
Theorem training_set_csv_no_labels (fs : gmap string entry) (input_dir : string)
    (listing : list string) (w : cwd) :
  os_listdir fs input_dir = Ok listing →
  Forall (fun name => os_path_isdir fs (os_path_join input_dir name) = false)
         listing →
  training_set_csv fs input_dir w =
  (w, Some (ValueError ("There were no subdirectories found under:" +:+ nl
                        +:+ input_dir))).
Proof.
  intros Hlist Hnone. unfold training_set_csv, get_subdirs. rewrite Hlist. simpl.
  assert (filter (fun subdir =>
            os_path_isdir fs (os_path_join input_dir subdir) = true) listing = [])
    as ->.
  { clear Hlist. induction Hnone as [|name listing Hname _ IH]; [done|].
    rewrite filter_cons_False by (by rewrite Hname). exact IH. }
  done.
Qed.

Lemma training_set_csv_no_labels_witness :
  training_set_csv example_tree "/data/SHIP" empty_cwd =
  (empty_cwd,
   Some (ValueError ("There were no subdirectories found under:" +:+ nl
                     +:+ "/data/SHIP"))).
Proof.
  apply (training_set_csv_no_labels example_tree "/data/SHIP" ["b.jpg"]).
  - vm_compute. reflexivity.
  - constructor; [|constructor]. vm_compute. reflexivity.
Defined.

Lemma keeps_refl (name : string) (w : cwd) : keeps name w w.
Proof. by split; [|split]. Qed.

Lemma keeps_trans (name : string) (w1 w2 w3 : cwd) :
  keeps name w1 w2 → keeps name w2 w3 → keeps name w1 w3.
Proof.
  intros (Hl1 & Hd1 & Hf1) (Hl2 & Hd2 & Hf2). split; [|split].
  - by etransitivity.
  - by etransitivity.
  - intros other Hne. by rewrite Hf2, Hf1.
Qed.

Lemma keeps_write (name line : string) (w : cwd) : keeps name w (write name line w).
Proof.
  split; [done|]. split; [done|].
  intros other Hne. unfold write. simpl. by rewrite lookup_insert_ne.
Qed.

Lemma keeps_add_file (input_dir : string) (file : string * string) (w : cwd) :
  keeps IMAGES_TRAIN_CSV w (add_file input_dir file w).1.
Proof.
  eapply keeps_trans; [apply (keeps_write _ (manifest_row file))|].
  unfold add_file, os_symlink.
  destruct (symlinks _ !! _) eqn:Hlink; simpl; [apply keeps_refl|].
  split; [|by split]. simpl. by apply insert_subseteq.
Qed.

Lemma keeps_for_list {A} (name : string) (body : A → cwd → cwd * option exn)
    (l : list A) (w : cwd) :
  (∀ a w, keeps name w (body a w).1) →
  keeps name w (for_list body l w).1.
Proof.
  intros Hbody. revert w. induction l as [|a l IH]; intros w.
  - apply keeps_refl.
  - rewrite for_list_cons. specialize (Hbody a w).
    destruct (body a w) as [w' [e|]]; [done|].
    eapply keeps_trans; [exact Hbody|apply IH].
Qed.

(** Whatever the tree and however the run ends, [training_set_csv] takes
    nothing away from the output location: every link that was there is
    there with its target, every directory is there, and every file other
    than the training manifest has its content. *)
Theorem training_set_csv_keeps (fs : gmap string entry) (input_dir : string)
    (w : cwd) :
  keeps IMAGES_TRAIN_CSV w (training_set_csv fs input_dir w).1.
Proof.
  unfold training_set_csv.
  destruct (get_subdirs fs input_dir) as [subdirs|e] eqn:Hsub;
    [|apply keeps_refl].
  destruct (get_subdirs_Ok _ _ _ Hsub) as (_ & Hdirs & _).
  assert (∀ w0, keeps IMAGES_TRAIN_CSV w w0 →
            keeps IMAGES_TRAIN_CSV w
              (for_list (training_subdir fs input_dir) subdirs
                 (write IMAGES_TRAIN_CSV (CSV_TITLE +:+ nl)
                    (open_w IMAGES_TRAIN_CSV w0))).1) as Hrun.
  { intros w0 Hw0. rewrite training_subdirs_flat by done.
    eapply keeps_trans; [|apply keeps_for_list, keeps_add_file].
    eapply keeps_trans; [exact Hw0|].
    eapply keeps_trans; [|apply keeps_write].
    split; [done|]. split; [done|].
    intros other Hne. unfold open_w. simpl. by rewrite lookup_insert_ne. }
  unfold os_mkdir. case_decide; apply Hrun; [apply keeps_refl|].
  split; [done|]. split; [|done]. simpl. apply union_subseteq_r.
Qed.

(** A second run into the same output location does not get past the
    first regular file: the links of the first run are in the way, so it
    raises [FileExistsError] after having emptied the manifest and written
    the header and the row of that file; the links stay as they were. *)
Theorem training_set_csv_rerun (fs : gmap string entry) (input_dir : string)
    (subdirs : list string) (file : string * string)
    (rest : list (string * string)) (w : cwd) :
  get_subdirs fs input_dir = Ok subdirs →
  labeled_files fs input_dir subdirs = file :: rest →
  NoDup (labeled_files fs input_dir subdirs).*1 →
  symlinks w = ∅ →
  ∃ w1 w2,
    training_set_csv fs input_dir w = (w1, None)
    ∧ training_set_csv fs input_dir w1 =
      (w2, Some (FileExistsError (os_path_join SYMLINK_DIR file.1)))
    ∧ files w2 !! IMAGES_TRAIN_CSV =
      Some [CSV_TITLE +:+ nl; file.1 +:+ "," +:+ file.2 +:+ nl]
    ∧ symlinks w2 = symlinks w1.
Proof.
  intros Hsub Hfiles Hnd Hempty.
  destruct (training_set_csv_flat _ _ _ w Hsub) as (w0 & Hrows & Hlinks & _ & Hrun).
  exists (added input_dir (labeled_files fs input_dir subdirs)
            [CSV_TITLE +:+ nl] w0).
  set (w1 := added _ _ _ _).
  destruct (training_set_csv_flat _ _ _ w1 Hsub)
    as (w0' & Hrows' & Hlinks' & _ & Hrun').
  assert (symlinks w0' !! os_path_join SYMLINK_DIR file.1 =
          Some (original_path input_dir file)) as Hthere.
  { rewrite Hlinks'. unfold w1, added. cbn [symlinks].
    apply lookup_union_Some_l.
    apply elem_of_list_to_map_1; [by apply NoDup_link_keys|].
    apply list_elem_of_fmap. exists file. split; [done|].
    rewrite Hfiles. apply list_elem_of_here. }
  exists (write IMAGES_TRAIN_CSV (manifest_row file) w0').
  split; [|split; [|split]].
  - rewrite Hrun. apply add_files_fresh; try done.
    intros f _. by rewrite Hlinks, Hempty.
  - rewrite Hrun', Hfiles, for_list_cons. unfold add_file, os_symlink.
    cbn [symlinks write]. by rewrite Hthere.
  - unfold write. cbn [files]. by rewrite lookup_insert_eq, Hrows'.
  - unfold write. cbn [symlinks]. exact Hlinks'.
Qed.

Lemma training_set_csv_rerun_witness :
  ∃ w1 w2,
    training_set_csv example_tree "/data" empty_cwd = (w1, None)
    ∧ training_set_csv example_tree "/data" w1 =
      (w2, Some (FileExistsError (os_path_join SYMLINK_DIR ("b.jpg", "SHIP").1)))
    ∧ files w2 !! IMAGES_TRAIN_CSV =
      Some [CSV_TITLE +:+ nl;
            ("b.jpg", "SHIP").1 +:+ "," +:+ ("b.jpg", "SHIP").2 +:+ nl]
    ∧ symlinks w2 = symlinks w1.
Proof.
  apply (training_set_csv_rerun example_tree "/data" ["SHIP"; "CAR"]
           ("b.jpg", "SHIP") [("z.jpg", "CAR"); ("a.jpg", "CAR")] empty_cwd).
  - vm_compute. reflexivity.
  - vm_compute. reflexivity.
  - apply (bool_decide_unpack _). vm_compute. exact I.
  - reflexivity.
Defined.

(** What [test_set_csv] leaves in either case: the manifest emptied and
    rewritten, everything else as it was. *)
Lemma test_set_csv_result (fs : gmap string entry) (input_dir : string) (w : cwd) :
  test_set_csv fs input_dir w =
  match os_listdir fs input_dir with
  | Raise e =>
      (Cwd (dirs w) (<[IMAGES_TEST_CSV:=[CSV_TITLE +:+ nl]]> (files w))
           (symlinks w), Some e)
  | Ok names =>
      (Cwd (dirs w)
           (<[IMAGES_TEST_CSV:=
                (CSV_TITLE +:+ nl)
                :: (test_row <$>
                      filter (fun img =>
                                os_path_isfile fs (os_path_join input_dir img)
                                = true)
                             (sorted names))]> (files w))
           (symlinks w), None)
  end.
Proof.
  unfold test_set_csv. destruct (os_listdir fs input_dir) as [names|e].
  - rewrite (test_imgs_rows _ _ _ [CSV_TITLE +:+ nl]).
    + unfold write, open_w. simpl. by rewrite !insert_insert_eq.
    + unfold write, open_w. simpl. by rewrite !lookup_insert_eq.
  - unfold write, open_w. simpl.
    by rewrite lookup_insert_eq, insert_insert_eq.
Qed.

(** Running [test_set_csv] again on what it left gives the same output
    location and the same outcome: the manifest is rewritten, not
    appended to. *)
Theorem test_set_csv_idempotent (fs : gmap string entry) (input_dir : string)
    (w : cwd) :
  test_set_csv fs input_dir (test_set_csv fs input_dir w).1 =
  test_set_csv fs input_dir w.
Proof.
  rewrite !test_set_csv_result.
  destruct (os_listdir fs input_dir); simpl; by rewrite insert_insert_eq.
Qed.

(** The test manifest does not depend on the order in which the directory
    is listed: the same entries listed in another order give the same
    file. *)
Theorem test_set_csv_listing_order (fs : gmap string entry) (input_dir : string)
    (listing listing' : list string) (w : cwd) :
  fs !! input_dir = Some (Directory listing) →
  listing ≡ₚ listing' →
  test_set_csv (<[input_dir:=Directory listing']> fs) input_dir w =
  test_set_csv fs input_dir w.
Proof.
  intros Hdir Hperm. rewrite !test_set_csv_result. unfold os_listdir.
  rewrite lookup_insert_eq, Hdir.
  assert (sorted listing' = sorted listing) as ->.
  { unfold sorted. apply (StronglySorted_unique String.le).
    - apply StronglySorted_merge_sort; apply _.
    - apply StronglySorted_merge_sort; apply _.
    - by rewrite !merge_sort_Permutation. }
  do 4 f_equal. apply (f_equal (fmap test_row)). apply list_filter_iff. intros img. unfold os_path_isfile.
  destruct (decide (input_dir = os_path_join input_dir img)) as [Heq|Hne].
  - by rewrite <- Heq, lookup_insert_eq, Hdir.
  - by rewrite lookup_insert_ne.
Qed.

Lemma test_set_csv_listing_order_witness :
  test_set_csv (<["/data/CAR":=Directory ["a.jpg"; "z.jpg"; "old"]]> example_tree)
    "/data/CAR" empty_cwd =
  test_set_csv example_tree "/data/CAR" empty_cwd.
Proof.
  apply (test_set_csv_listing_order example_tree "/data/CAR"
           ["z.jpg"; "old"; "a.jpg"] ["a.jpg"; "z.jpg"; "old"] empty_cwd).
  - vm_compute. reflexivity.
  - apply (bool_decide_unpack _). vm_compute. exact I.
Defined.

(** When the input directory cannot be listed, [test_set_csv] raises the
    error of the listing, but only after it has emptied the manifest and
    written the header: a manifest of the header alone is left behind. *)
Theorem test_set_csv_unlisted (fs : gmap string entry) (input_dir : string)
    (e : exn) (w : cwd) :
  os_listdir fs input_dir = Raise e →
  ∃ w', test_set_csv fs input_dir w = (w', Some e)
        ∧ files w' !! IMAGES_TEST_CSV = Some ["imgfile,class" +:+ nl]
        ∧ keeps IMAGES_TEST_CSV w w'.
Proof.
  intros Hlist. rewrite test_set_csv_result, Hlist. eexists.
  split; [reflexivity|]. split; [apply lookup_insert_eq|].
  split; [done|]. split; [done|]. intros other Hne. simpl.
  by rewrite lookup_insert_ne.
Qed.

Lemma test_set_csv_unlisted_witness :
  ∃ w', test_set_csv example_tree "/data/notes.txt" empty_cwd =
          (w', Some (NotADirectoryError "/data/notes.txt"))
        ∧ files w' !! IMAGES_TEST_CSV = Some ["imgfile,class" +:+ nl]
        ∧ keeps IMAGES_TEST_CSV empty_cwd w'.
Proof.
  apply (test_set_csv_unlisted example_tree "/data/notes.txt"
           (NotADirectoryError "/data/notes.txt") empty_cwd).
  vm_compute. reflexivity.
Defined.

End imgtocsv_further.
